(** * Forklift: per-VM migration resource convergence

    A shallow embedding of the convergence engine of the forklift
    controller (package [plan], the KubeVirt adapter), of the earlier
    VMIO-based [ensureObject] helper, and of the OpenStack inventory
    client, together with the properties the specification states about
    them.

    Go values are embedded as follows: [error] is [option Err] ([None] is
    [nil]); a [map[string]string] is a [gmap string string]; a slice is a
    [list]; a method with a pointer receiver that mutates its arguments
    returns the updated values; calls to the Kubernetes API server go
    through an explicit cluster state. *)

From Stdlib Require Import ZArith List Bool Ascii String Lia.
From stdpp Require Import base option list strings gmap fin_maps pretty.

Open Scope string_scope.
Open Scope Z_scope.
Open Scope list_scope.

(** ** Errors *)

(** The reasons of a Kubernetes API status error that the code inspects
    ([k8s.io/apimachinery/pkg/api/errors]). *)
Inductive Reason :=
  | ReasonAlreadyExists
  | ReasonNotFound
  | ReasonForbidden
  | ReasonConflict
  | ReasonUnknown.

(** An [error] value: its reason, its message, and whether [liberr.Wrap]
    has decorated it. *)
Record Err := mkErr {
  reason : Reason;
  message : string;
  wrapped : bool
}.

#[global] Instance Reason_eq_dec : EqDecision Reason.
Proof. solve_decision. Defined.

#[global] Instance Err_eq_dec : EqDecision Err.
Proof. solve_decision. Defined.

Definition error := option Err.

(** Modelled from the spec: [liberr.Wrap] (package [pkg/lib/error], not
    part of the sources at hand) wraps an error with context "then
    propagated"; [nil] stays [nil] and the cause is kept. *)
Definition Wrap (err : error) : error :=
  match err with
  | None => None
  | Some e => Some (mkErr (reason e) (message e) true)
  end.

(** Modelled from the spec: [liberr.New] builds a fresh internal error. *)
Definition New (msg : string) : error :=
  Some (mkErr ReasonUnknown msg true).

Definition reasonOf (err : error) : option Reason := reason <$> err.

Definition IsAlreadyExists (err : error) : bool :=
  match err with
  | Some e => bool_decide (reason e = ReasonAlreadyExists)
  | None => false
  end.

Definition IsNotFound (err : error) : bool :=
  match err with
  | Some e => bool_decide (reason e = ReasonNotFound)
  | None => false
  end.

Definition isNil (err : error) : bool :=
  match err with None => true | Some _ => false end.

Lemma Wrap_nil err : Wrap err = None ↔ err = None.
Proof. destruct err; simpl; split; congruence. Qed.

Lemma Wrap_reason err : reasonOf (Wrap err) = reasonOf err.
Proof. by destruct err. Qed.

Lemma Wrap_idem err : Wrap (Wrap err) = Wrap err.
Proof. by destruct err. Qed.

(** ** [pkg/controller/plan/kubevirt.go]: [ensureObject] *)

Module VMIO.

(** The calls [ensureObject] issues, with what the API server answered. *)
Inductive Call :=
  | CreateCall (answer : error)
  | DeleteCall (answer : error).

Definition isCreate (c : Call) : bool :=
  match c with CreateCall _ => true | DeleteCall _ => false end.

Definition isDelete (c : Call) : bool :=
  match c with CreateCall _ => false | DeleteCall _ => true end.

Section EnsureObject.

(** The API server is any state machine answering [Create] and
    [Delete]; [Object] is [runtime.Object]. *)
Context {Server Object : Type}.
Variable Create : Object → Server → error * Server.
Variable Delete : Object → Server → error * Server.

(** The client state: the server behind it and the calls made so far,
    oldest first. *)
Record Client := mkClient {
  server : Server;
  calls : list Call
}.

Definition clientCreate (object : Object) (c : Client) : error * Client :=
  let '(err, s) := Create object (server c) in
  (err, mkClient s (calls c ++ [CreateCall err])).

Definition clientDelete (object : Object) (c : Client) : error * Client :=
  let '(err, s) := Delete object (server c) in
  (err, mkClient s (calls c ++ [DeleteCall err])).

(** [deleteObject]: a missing object is not an error. *)
Definition deleteObject (object : Object) (c : Client) : error * Client :=
  let '(err, c) := clientDelete object c in
  if negb (IsNotFound err) then (Wrap err, c) else (None, c).

(** The body of the [for] loop of [ensureObject]; [fuel] bounds the
    iterations of the model, [retry] is the Go variable. *)
Fixpoint ensureLoop (fuel : nat) (retry : Z) (object : Object) (c : Client)
  : option (error * Client) :=
  match fuel with
  | O => None
  | S fuel =>
      let '(err, c) := clientCreate object c in
      if IsAlreadyExists err && (0 <? retry) then
        let retry := retry - 1 in
        let '(err, c) := deleteObject object c in
        if negb (isNil err) then Some (err, c)
        else ensureLoop fuel retry object c
      else Some (err, c)
  end.

(** [ensureObject]: [retry := 3], and the deferred [liberr.Wrap]. *)
Definition ensureObject (fuel : nat) (object : Object) (c : Client)
  : option (error * Client) :=
  match ensureLoop fuel 3 object c with
  | Some (err, c) => Some (Wrap err, c)
  | None => None
  end.

(** What a run of the loop with [k] retries left may look like: the
    calls it makes and the error it ends with. *)
Fixpoint loopShape (k : nat) (seg : list Call) (err : error) : Prop :=
  match seg with
  | [CreateCall r] =>
      (IsAlreadyExists r = false ∨ k = O) ∧ err = r
  | CreateCall r :: DeleteCall d :: rest =>
      IsAlreadyExists r = true ∧
      match k with
      | O => False
      | S k' =>
          if IsNotFound d || isNil d
          then rest ≠ [] ∧ loopShape k' rest err
          else rest = [] ∧ err = Wrap d
      end
  | _ => False
  end.

Lemma loopShape_counts k seg err :
  loopShape k seg err →
  (length (filter isCreate seg) ≤ S k)%nat ∧
  (length (filter isDelete seg) ≤ k)%nat.
Proof.
  revert seg. induction k as [|k IH]; intros seg H.
  - destruct seg as [|[r|d] [|[r'|d'] rest]]; simpl in H;
      try done; try tauto; simpl; lia.
  - destruct seg as [|[r|d] [|[r'|d'] rest]]; simpl in H;
      try done; try (simpl; lia).
    destruct H as [_ H].
    change (filter isCreate (CreateCall r :: DeleteCall d' :: rest))
      with (CreateCall r :: filter isCreate rest).
    change (filter isDelete (CreateCall r :: DeleteCall d' :: rest))
      with (DeleteCall d' :: filter isDelete rest).
    destruct (IsNotFound d' || isNil d').
    + destruct H as [_ H]. apply IH in H. simpl. lia.
    + destruct H as [-> _]. simpl. lia.
Qed.

Lemma ensureLoop_shape (n : nat) (fuel : nat) object c :
  (n < fuel)%nat →
  ∃ err c' seg,
    ensureLoop fuel (Z.of_nat n) object c = Some (err, c') ∧
    calls c' = calls c ++ seg ∧ loopShape n seg err.
Proof.
  revert fuel c. induction n as [|n IH]; intros fuel c Hf.
  - destruct fuel as [|fuel]; [lia|]. simpl.
    unfold clientCreate. destruct (Create object (server c)) as [r s].
    rewrite andb_false_r.
    eexists _, _, [CreateCall r]. simpl. eauto.
  - destruct fuel as [|fuel]; [lia|]. cbn [ensureLoop].
    unfold clientCreate. destruct (Create object (server c)) as [r s].
    destruct (IsAlreadyExists r) eqn:Hr.
    + replace (0 <? Z.of_nat (S n)) with true
        by (symmetry; apply Z.ltb_lt; lia).
      cbn [andb]. unfold deleteObject, clientDelete. cbn [server calls].
      destruct (Delete object s) as [d s'].
      replace (Z.of_nat (S n) - 1) with (Z.of_nat n) by lia.
      destruct (IsNotFound d) eqn:Hd; cbn [negb isNil].
      * edestruct (IH fuel (mkClient s' ((calls c ++ [CreateCall r]) ++ [DeleteCall d])))
          as (err & c' & seg & He & Hc & Hs); [lia|].
        exists err, c', (CreateCall r :: DeleteCall d :: seg).
        rewrite He. split; [done|]. split.
        { rewrite Hc. cbn [calls]. by rewrite <- !app_assoc. }
        cbn [loopShape]. rewrite Hr, Hd. cbn [orb]. split; [done|].
        split; [|done]. intros ->. destruct n; simpl in Hs; done.
      * destruct d as [e|]; cbn [Wrap isNil negb].
        -- eexists _, _, [CreateCall r; DeleteCall (Some e)].
           split; [done|]. cbn [calls]. rewrite <- app_assoc.
           split; [done|]. cbn [loopShape]. rewrite Hr, Hd. by cbn.
        -- edestruct (IH fuel (mkClient s' ((calls c ++ [CreateCall r]) ++ [DeleteCall None])))
             as (err & c' & seg & He & Hc & Hs); [lia|].
           exists err, c', (CreateCall r :: DeleteCall None :: seg).
           rewrite He. split; [done|]. split.
           { rewrite Hc. cbn [calls]. by rewrite <- !app_assoc. }
           cbn [loopShape]. rewrite Hr, Hd. cbn. split; [done|].
           split; [|done]. intros ->. destruct n; simpl in Hs; done.
    + cbn [andb]. eexists _, _, [CreateCall r]. cbn [calls loopShape].
      split; [done|]. split; [done|]. auto.
Qed.


End EnsureObject.

End VMIO.

(** ** [pkg/controller/provider/container/openstack/client.go] *)

Module OpenStack.

(** A Go result pair [(value, err)] of which exactly one side is
    meaningful. *)
Inductive result (E A : Type) :=
  | Ok (a : A)
  | Fail (e : E).
Arguments Ok {E A} a.
Arguments Fail {E A} e.

(** The gophercloud errors the client tells apart, the other errors, an
    error decorated by [liberr], and a run-time panic (a nil dereference),
    which unwinds through every caller like an error nobody inspects. *)
Inductive OsErr :=
  | ErrDefault403
  | ErrDefault404
  | ErrResourceNotFound
  | ErrOther (msg : string)
  | ErrLib (msg : string)
  | ErrWrapped (cause : OsErr)
  | Panic (msg : string).

#[global] Instance OsErr_eq_dec : EqDecision OsErr.
Proof. solve_decision. Defined.

(** Modelled from the spec: [liberr.Wrap], [liberr.New] and
    [liberr.Unwrap] of [pkg/lib/error], which is not among the sources:
    wrapping keeps the cause, and unwrapping gives it back. *)
Definition osWrap (e : OsErr) : OsErr :=
  match e with
  | ErrWrapped _ | ErrLib _ => e
  | _ => ErrWrapped e
  end.

Fixpoint osUnwrap (e : OsErr) : OsErr :=
  match e with
  | ErrWrapped c => osUnwrap c
  | _ => e
  end.

(** [strconv.ParseBool] of the Go standard library. *)
Definition ParseBool (str : string) : result string bool :=
  if bool_decide (str ∈ ["1"; "t"; "T"; "TRUE"; "true"; "True"]) then Ok true
  else if bool_decide (str ∈ ["0"; "f"; "F"; "FALSE"; "false"; "False"]) then Ok false
  else Fail ("strconv.ParseBool: parsing " +:+ str +:+ ": invalid syntax").

(** [core.Secret]: only [Data] is read, a [map[string][]byte]. *)
Record Secret := mkSecret {
  Data : gmap string string
}.

Record TLSConfig := mkTLS {
  InsecureSkipVerify : bool;
  RootCAs : option (list string)
}.

(** [clientconfig.ClientOpts] with its [AuthInfo] and the TLS
    configuration of its HTTP transport. *)
Record ClientOpts := mkOpts {
  AuthURL : string;
  Username : string;
  Password : string;
  ProjectName : string;
  DomainName : string;
  AllowReauth : bool;
  TLSClientConfig : TLSConfig
}.

(** The kinds of resource [list] and [get] switch over. *)
Inductive Kind :=
  | KRegion | KProject | KFlavor | KImage | KVM
  | KSnapshot | KVolume | KVolumeType | KNetwork
  | KUnsupported.

#[global] Instance Kind_eq_dec : EqDecision Kind.
Proof. solve_decision. Defined.

Inductive Service := Identity | Compute | Image | BlockStorage.

(** A gophercloud resource as the client reads it. *)
Record Raw := mkRaw {
  ID : string;
  Name : string;
  ExtraSpecs : option (gmap string string)
}.

(** The client's wrappers: [Region{region}], ..., and
    [Flavor{Flavor: flavor, ExtraSpecs: extraSpecs}]. *)
Inductive Resource :=
  | Plain (k : Kind) (r : Raw)
  | FlavorOf (r : Raw) (extraSpecs : gmap string string).

(** The list options: the name filter, which [list] overwrites for
    projects, and the other filters. *)
Record ListOpts := mkListOpts {
  optsName : string;
  optsFilters : string
}.

(** What [provider.GetAuthResult()] may hold. *)
Inductive AuthResult :=
  | NoAuthResult
  | TokenCreateResult (user : result OsErr string)
  | OtherAuthResult (typeName : string).

Section Client.

Context {Provider ServiceClient Page : Type}.

(** The OpenStack services and the libraries in front of them
    (gophercloud, crypto/x509), as far as the client calls them. *)
Record API := mkAPI {
  (** certificates found in a PEM text ([AppendCertsFromPEM] reports
      whether there is one) *)
  parsePEM : string → list string;
  SystemCertPool : result OsErr (list string);
  AuthenticatedClient : ClientOpts → result OsErr Provider;
  NewService : Service → Provider → string → result OsErr ServiceClient;
  GetAuthResult : Provider → AuthResult;
  (** [X.List(service, opts).AllPages()] *)
  AllPages : Kind → option ServiceClient → option ListOpts → result OsErr Page;
  (** [X.ExtractXs(allPages)] *)
  Extract : Kind → Page → result OsErr (list Raw);
  ListExtraSpecs : option ServiceClient → string → result OsErr (gmap string string);
  (** [users.ListProjects(service, userID).AllPages()] *)
  ListProjects : option ServiceClient → string → result OsErr Page;
  (** [X.Get(service, ID).Extract()] *)
  GetOne : Kind → option ServiceClient → string → result OsErr Raw
}.

Record Client := mkClient {
  URL : string;
  secret : Secret;
  provider : option Provider;
  identityService : option ServiceClient;
  ComputeService : option ServiceClient;
  ImageService : option ServiceClient;
  BlockStorageService : option ServiceClient
}.

Variable api : API.

Definition secretString (r : Client) (key : string) : string :=
  match Data (secret r) !! key with
  | Some v => v
  | None => ""
  end.

Definition username (r : Client) := secretString r "username".
Definition password (r : Client) := secretString r "password".
Definition projectName (r : Client) := secretString r "projectName".
Definition domainName (r : Client) := secretString r "domainName".
Definition region (r : Client) := secretString r "regionName".
Definition cacert (r : Client) := secretString r "cacert".

Definition insecureSkipVerify (r : Client) : bool :=
  match Data (secret r) !! "insecureSkipVerify" with
  | Some insecureSkipVerifyStr =>
      match ParseBool insecureSkipVerifyStr with
      | Fail _ => false
      | Ok insecureSkipVerify => insecureSkipVerify
      end
  | None => false
  end.

(** The first part of [Connect]: the TLS configuration and the client
    options built around it. *)
Definition connectOpts (r : Client) : result OsErr ClientOpts :=
  let tls :=
    if insecureSkipVerify r then Ok (mkTLS true None)
    else
      let roots := parsePEM api (cacert r) in
      match roots with
      | _ :: _ => Ok (mkTLS false (Some roots))
      | [] =>
          match SystemCertPool api with
          | Fail _ => Fail (ErrLib "failed to configure the system's cert pool")
          | Ok roots => Ok (mkTLS false (Some roots))
          end
      end in
  match tls with
  | Fail e => Fail e
  | Ok TLSClientConfig =>
      Ok (mkOpts (URL r) (username r) (password r) (projectName r)
                 (domainName r) true TLSClientConfig)
  end.

(** [Connect]: the client with the fields set so far, and the error. *)
Definition Connect (r : Client) : Client * option OsErr :=
  match connectOpts r with
  | Fail e => (r, Some e)
  | Ok clientOpts =>
  match AuthenticatedClient api clientOpts with
  | Fail e => (r, Some (osWrap e))
  | Ok p =>
  let r := mkClient (URL r) (secret r) (Some p) (identityService r)
             (ComputeService r) (ImageService r) (BlockStorageService r) in
  match NewService api Identity p (region r) with
  | Fail e => (r, Some (osWrap e))
  | Ok s =>
  let r := mkClient (URL r) (secret r) (provider r) (Some s)
             (ComputeService r) (ImageService r) (BlockStorageService r) in
  match NewService api Compute p (region r) with
  | Fail e => (r, Some (osWrap e))
  | Ok s =>
  let r := mkClient (URL r) (secret r) (provider r) (identityService r)
             (Some s) (ImageService r) (BlockStorageService r) in
  match NewService api Image p (region r) with
  | Fail e => (r, Some (osWrap e))
  | Ok s =>
  let r := mkClient (URL r) (secret r) (provider r) (identityService r)
             (ComputeService r) (Some s) (BlockStorageService r) in
  match NewService api BlockStorage p (region r) with
  | Fail e => (r, Some (osWrap e))
  | Ok s =>
  (mkClient (URL r) (secret r) (provider r) (identityService r)
     (ComputeService r) (ImageService r) (Some s), None)
  end end end end end end.

Definition isNotFound (err : OsErr) : bool :=
  match osUnwrap err with
  | ErrResourceNotFound | ErrDefault404 => true
  | _ => false
  end.

Definition isForbidden (err : OsErr) : bool :=
  match osUnwrap err with
  | ErrDefault403 => true
  | _ => false
  end.

Definition getAuthenticatedUserID (r : Client) : result OsErr string :=
  match provider r with
  | None => Fail (Panic "nil pointer dereference")
  | Some p =>
      match GetAuthResult api p with
      | NoAuthResult => Fail (ErrLib "no AuthResult available")
      | TokenCreateResult (Fail err) => Fail err
      | TokenCreateResult (Ok u) => Ok u
      | OtherAuthResult a =>
          Fail (ErrLib ("got unexpected AuthResult type: " +:+ a))
      end
  end.

Definition getUserProjects (r : Client) : list Resource * option OsErr :=
  match getAuthenticatedUserID r with
  | Fail err => ([], Some err)
  | Ok userID =>
      match ListProjects api (identityService r) userID with
      | Fail err => ([], Some err)
      | Ok allPages =>
          match Extract api KProject allPages with
          | Fail err => ([], Some err)
          | Ok projectList =>
              (Plain KProject <$>
                 filter (λ project, Name project = projectName r) projectList,
               None)
          end
      end
  end.

Definition resourceID (x : Resource) : string :=
  match x with
  | Plain _ r => ID r
  | FlavorOf r _ => ID r
  end.

Definition getUserProject (r : Client) (projectID : string)
  : option Resource * option OsErr :=
  match getUserProjects r with
  | (_, Some err) => (None, Some err)
  | (userProjects, None) =>
      match List.find (λ p, bool_decide (resourceID p = projectID)) userProjects with
      | Some p => (Some p, None)
      | None => (None, Some ErrDefault404)
      end
  end.

(** The common shape of most cases of [list]: fetch all pages, extract,
    wrap each element. *)
Definition listPlain (k : Kind) (svc : option ServiceClient)
    (listopts : option ListOpts) (wrap : Raw → Resource)
    (object : list Resource) : list Resource * option OsErr :=
  match AllPages api k svc listopts with
  | Fail err => (object, Some err)
  | Ok allPages =>
      match Extract api k allPages with
      | Fail err => (object, Some err)
      | Ok rawList => (wrap <$> rawList, None)
      end
  end.

(** The loop of the [*[]Flavor] case. *)
Fixpoint flavorsWithSpecs (r : Client) (flavorList : list Raw)
  : result OsErr (list Resource) :=
  match flavorList with
  | [] => Ok []
  | flavor :: rest =>
      match ListExtraSpecs api (ComputeService r) (ID flavor) with
      | Fail err => Fail err
      | Ok extraSpecs =>
          match flavorsWithSpecs r rest with
          | Fail err => Fail err
          | Ok l => Ok (FlavorOf flavor extraSpecs :: l)
          end
      end
  end.

(** [list]: [object] is what the caller's slice holds before the call;
    the result is what it holds after it, and the error. *)
Definition list_ (r : Client) (k : Kind) (listopts : ListOpts)
    (object : list Resource) : list Resource * option OsErr :=
  match k with
  | KRegion =>
      match AllPages api KRegion (identityService r) (Some listopts) with
      | Fail err => (object, Some err)
      | Ok allPages =>
          match Extract api KRegion allPages with
          | Fail err => (object, Some err)
          | Ok regionList =>
              (Plain KRegion <$>
                 filter (λ reg, ID reg = region r) regionList, None)
          end
      end
  | KProject =>
      let opts := mkListOpts (projectName r) (optsFilters listopts) in
      match AllPages api KProject (identityService r) (Some opts) with
      | Fail err =>
          if negb (isForbidden err) then (object, Some err)
          else getUserProjects r
      | Ok allPages =>
          match Extract api KProject allPages with
          | Fail err => (object, Some err)
          | Ok projectList => (Plain KProject <$> projectList, None)
          end
      end
  | KFlavor =>
      match AllPages api KFlavor (ComputeService r) (Some listopts) with
      | Fail err => (object, Some err)
      | Ok allPages =>
          match Extract api KFlavor allPages with
          | Fail err => (object, Some err)
          | Ok flavorList =>
              match flavorsWithSpecs r flavorList with
              | Fail err => (object, Some err)
              | Ok instanceList => (instanceList, None)
              end
          end
      end
  | KImage =>
      listPlain KImage (ImageService r) (Some listopts) (Plain KImage) object
  | KVM =>
      listPlain KVM (ComputeService r) (Some listopts) (Plain KVM) object
  | KSnapshot =>
      listPlain KSnapshot (BlockStorageService r) None (Plain KSnapshot) object
  | KVolume =>
      listPlain KVolume (BlockStorageService r) (Some listopts) (Plain KVolume) object
  | KVolumeType =>
      listPlain KVolumeType (BlockStorageService r) (Some listopts)
        (λ volumeType,
           Plain KVolumeType
             (mkRaw (ID volumeType) (Name volumeType)
                (match ExtraSpecs volumeType with
                 | None => Some ∅
                 | Some m => Some m
                 end)))
        object
  | KNetwork =>
      listPlain KNetwork (ComputeService r) None (Plain KNetwork) object
  | KUnsupported => (object, Some (ErrLib "unsupported type"))
  end.

(** [get]: the assignment to the parameter [object] stays local to the
    function, so the caller sees the error only; the first component is
    that local value. *)
Definition get (r : Client) (k : Kind) (ID : string)
  : option Resource * option OsErr :=
  let plain svc :=
    match GetOne api k svc ID with
    | Fail err => (None, Some err)
    | Ok x => (Some (Plain k x), None)
    end in
  match k with
  | KRegion => plain (identityService r)
  | KProject =>
      match GetOne api KProject (identityService r) ID with
      | Fail err =>
          if negb (isForbidden err) then (None, Some err)
          else getUserProject r ID
      | Ok project => (Some (Plain KProject project), None)
      end
  | KFlavor =>
      match GetOne api KFlavor (ComputeService r) ID with
      | Fail err => (None, Some err)
      | Ok flavor =>
          match ListExtraSpecs api (ComputeService r) ID with
          | Fail err => (None, Some err)
          | Ok extraSpecs => (Some (FlavorOf flavor extraSpecs), None)
          end
      end
  | KImage => plain (ImageService r)
  | KSnapshot | KVolume | KVolumeType => plain (BlockStorageService r)
  | KVM | KNetwork => plain (ComputeService r)
  | KUnsupported => (None, Some (ErrLib "unsupported type"))
  end.

(** The service and the options of the first request [list] sends for a
    kind, and the service of the request [get] sends. *)
Definition serviceOf (r : Client) (k : Kind) : option ServiceClient :=
  match k with
  | KRegion | KProject | KUnsupported => identityService r
  | KFlavor | KVM | KNetwork => ComputeService r
  | KImage => ImageService r
  | KSnapshot | KVolume | KVolumeType => BlockStorageService r
  end.

Definition optsOf (r : Client) (k : Kind) (listopts : ListOpts)
  : option ListOpts :=
  match k with
  | KProject => Some (mkListOpts (projectName r) (optsFilters listopts))
  | KSnapshot | KNetwork => None
  | _ => Some listopts
  end.

(** *** Properties of the OpenStack client *)

Lemma ParseBool_true (str : string) :
  ParseBool str = Ok true ↔ str ∈ ["1"; "t"; "T"; "TRUE"; "true"; "True"].
Proof.
  unfold ParseBool. repeat case_bool_decide; split; intros ?; done.
Qed.


Lemma flavorsWithSpecs_fail (r : Client) (flavorList : list Raw) (e : OsErr) :
  flavorsWithSpecs r flavorList = Fail e →
  ∃ flavor, flavor ∈ flavorList ∧
            ListExtraSpecs api (ComputeService r) (ID flavor) = Fail e.
Proof.
  induction flavorList as [|f l IH]; simpl; [done|].
  destruct (ListExtraSpecs api (ComputeService r) (ID f)) as [m|e1] eqn:Hf.
  - destruct (flavorsWithSpecs r l) as [l'|e2]; [done|].
    intros [= ->]. destruct IH as (f' & Hin & Hf'); [done|].
    exists f'. split; [by right|done].
  - intros [= ->]. exists f. split; [by left|done].
Qed.

(** C8, as the code has it. Whatever error the service gives to the
    request of a [list] or a [get] (a Forbidden one too) is returned
    unchanged, and the caller's slice is left alone, for every kind of
    resource but projects. For projects a Forbidden error is not
    returned: the client falls back on the projects of the authenticated
    user, and the result and the error of the call are those of the
    fallback ([getUserProjects], [getUserProject]); an error of the
    fallback's own request is returned. The requests for the extra specs
    of a flavor return their error as well. *)
Theorem forbidden_propagated_except_projects
    (r : Client) (k : Kind) (listopts : ListOpts) (object : list Resource)
    (id : string) (e : OsErr) :
  k ≠ KUnsupported →
  (AllPages api k (serviceOf r k) (optsOf r k listopts) = Fail e →
   list_ r k listopts object =
     if bool_decide (k = KProject) && isForbidden e
     then getUserProjects r else (object, Some e)) ∧
  (GetOne api k (serviceOf r k) id = Fail e →
   get r k id =
     if bool_decide (k = KProject) && isForbidden e
     then getUserProject r id else (None, Some e)) ∧
  (∀ userID, getAuthenticatedUserID r = Ok userID →
     ListProjects api (identityService r) userID = Fail e →
     getUserProjects r = ([], Some e) ∧
     getUserProject r id = (None, Some e)) ∧
  (∀ flavor, GetOne api KFlavor (ComputeService r) id = Ok flavor →
     ListExtraSpecs api (ComputeService r) id = Fail e →
     get r KFlavor id = (None, Some e)) ∧
  (∀ allPages flavorList,
     AllPages api KFlavor (ComputeService r) (Some listopts) = Ok allPages →
     Extract api KFlavor allPages = Ok flavorList →
     flavorsWithSpecs r flavorList = Fail e →
     list_ r KFlavor listopts object = (object, Some e)).
Proof.
  intros Hk. split; [|split; [|split; [|split]]].
  - intros H. destruct k; simpl in *; unfold listPlain; rewrite ?H; try done.
    by destruct (isForbidden e).
  - intros H. destruct k; simpl in *; rewrite ?H; try done.
    by destruct (isForbidden e).
  - intros userID H1 H2. unfold getUserProject, getUserProjects.
    by rewrite H1, H2.
  - intros flavor H1 H2. simpl. by rewrite H1, H2.
  - intros allPages flavorList H1 H2 H3. simpl. by rewrite H1, H2, H3.
Qed.

(** *** What the inventory is restricted to *)

Lemma getUserProjects_named (r : Client) (userProjects : list Resource) :
  getUserProjects r = (userProjects, None) →
  ∀ x, x ∈ userProjects → ∃ project, x = Plain KProject project ∧ Name project = projectName r.
Proof.
  unfold getUserProjects.
  destruct (getAuthenticatedUserID r) as [userID|e]; [|done].
  destruct (ListProjects api _ userID) as [allPages|e]; [|done].
  destruct (Extract api KProject allPages) as [projectList|e]; [|done].
  intros [= <-] x (project & -> & Hp)%list_elem_of_fmap.
  apply list_elem_of_filter in Hp as [Hname _]. by exists project.
Qed.


(** X13. [getUserProject] returns a project exactly when it returns no
    error. The project it returns has the ID asked for and is one of the
    user's projects; when the user's projects were listed and none has
    that ID, the error is a 404, which [isNotFound] recognises. *)
Theorem getUserProject_found_or_404 (r : Client) (projectID : string) :
  match getUserProject r projectID with
  | (Some project, None) =>
      resourceID project = projectID ∧ project ∈ (getUserProjects r).1 ∧
      (getUserProjects r).2 = None
  | (None, Some err) =>
      (getUserProjects r).2 = Some err ∨
      ((getUserProjects r).2 = None ∧ err = ErrDefault404 ∧ isNotFound err = true ∧
       ∀ project, project ∈ (getUserProjects r).1 → resourceID project ≠ projectID)
  | _ => False
  end.
Proof.
  unfold getUserProject.
  destruct (getUserProjects r) as [userProjects [e|]]; simpl; [by left|].
  destruct (List.find _ userProjects) as [project|] eqn:Hfind.
  - apply find_some in Hfind as [Hin Hid].
    apply bool_decide_eq_true in Hid. by apply list_elem_of_In in Hin.
  - right. repeat split. intros project Hin%list_elem_of_In Hid.
    apply (find_none _ _ Hfind) in Hin. by apply bool_decide_eq_false in Hin.
Qed.

(** X14. What an error of [list] leaves of the caller's slice. Every
    error path returns before the slice is assigned, save one: when the
    listing of the projects is forbidden, the slice takes the result of
    the fallback, and is emptied if the fallback fails too. *)
Theorem list_error_keeps_slice (r : Client) (k : Kind) (listopts : ListOpts)
    (object : list Resource) :
  match (list_ r k listopts object).2 with
  | None => True
  | Some err =>
      (list_ r k listopts object).1 = object ∨
      (k = KProject ∧ (list_ r k listopts object).1 = [] ∧
       getUserProjects r = ([], Some err) ∧
       ∃ forbidden,
         AllPages api KProject (identityService r)
           (Some (mkListOpts (projectName r) (optsFilters listopts))) = Fail forbidden ∧
         isForbidden forbidden = true)
  end.
Proof.
  destruct k; unfold list_, listPlain;
    try (destruct (AllPages api _ _ _) as [allPages|e] eqn:Hpages; [|by left];
         destruct (Extract api _ allPages) as [l|e]; [done|by left]).
  - destruct (AllPages api _ _ _) as [allPages|e] eqn:Hpages.
    + destruct (Extract api _ allPages) as [l|e']; [done|by left].
    + destruct (isForbidden e) eqn:Hf; simpl; [|by left].
      destruct (getUserProjects r) as [userProjects [e'|]] eqn:Hup; simpl; [|done].
      right. assert (userProjects = []) as ->.
      { revert Hup. unfold getUserProjects.
        destruct (getAuthenticatedUserID r) as [userID|e0]; [|congruence].
        destruct (ListProjects api _ userID) as [allPages|e0]; [|congruence].
        destruct (Extract api KProject allPages) as [projectList|e0]; congruence. }
      repeat split. by exists e.
  - destruct (AllPages api _ _ _) as [allPages|e] eqn:Hpages; [|by left].
    destruct (Extract api _ allPages) as [l|e]; [|by left].
    destruct (flavorsWithSpecs r l) as [instanceList|e]; [done|by left].
  - by left.
Qed.

(** X15. The volume types [list] returns always have a map of extra
    specs, an empty one when the service gave none. *)
Theorem list_volume_types_have_specs (r : Client) (listopts : ListOpts)
    (object volumeTypes : list Resource) :
  list_ r KVolumeType listopts object = (volumeTypes, None) →
  ∀ x, x ∈ volumeTypes →
    ∃ volumeType, x = Plain KVolumeType volumeType ∧ ExtraSpecs volumeType ≠ None.
Proof.
  unfold list_, listPlain.
  destruct (AllPages api _ _ _) as [allPages|e]; [|done].
  destruct (Extract api _ allPages) as [l|e]; [|done].
  intros [= <-] x (volumeType & -> & _)%list_elem_of_fmap.
  eexists. split; [done|]. simpl. by destruct (ExtraSpecs volumeType).
Qed.

(** X16. [Connect] never touches the URL and the Secret. When it returns
    nil, the provider and the four services are set, each service made
    from the new provider for the region of the Secret. When it fails,
    the block storage service is the one the client had; and if it fails
    before or while authenticating, the whole client is as it was, an
    earlier provider and its services included. *)
Theorem Connect_sets_services (r : Client) :
  let r' := (Connect r).1 in
  URL r' = URL r ∧ secret r' = secret r ∧
  match (Connect r).2 with
  | None =>
      ∃ opts p identity compute image blockStorage,
        connectOpts r = Ok opts ∧ AuthenticatedClient api opts = Ok p ∧
        NewService api Identity p (region r) = Ok identity ∧
        NewService api Compute p (region r) = Ok compute ∧
        NewService api Image p (region r) = Ok image ∧
        NewService api BlockStorage p (region r) = Ok blockStorage ∧
        r' = mkClient (URL r) (secret r) (Some p) (Some identity) (Some compute)
               (Some image) (Some blockStorage)
  | Some _ =>
      BlockStorageService r' = BlockStorageService r ∧
      ((∀ opts p, connectOpts r = Ok opts → AuthenticatedClient api opts ≠ Ok p) → r' = r)
  end.
Proof.
  cbv zeta. unfold Connect.
  destruct (connectOpts r) as [opts|e] eqn:Hopts; [|done].
  destruct (AuthenticatedClient api opts) as [p|e] eqn:Hauth; [|done].
  assert (∀ Q : Prop,
            (∀ opts' p', Ok (E := OsErr) opts = Ok opts' →
               AuthenticatedClient api opts' ≠ Ok p') → Q) as Hfalse.
  { intros Q HQ. by destruct (HQ opts p eq_refl). }
  cbn [region secretString secret].
  destruct (NewService api Identity p _) as [identity|e] eqn:H1; simpl;
    [|by repeat split; try apply Hfalse].
  destruct (NewService api Compute p _) as [compute|e] eqn:H2; simpl;
    [|by repeat split; try apply Hfalse].
  destruct (NewService api Image p _) as [image|e] eqn:H3; simpl;
    [|by repeat split; try apply Hfalse].
  destruct (NewService api BlockStorage p _) as [blockStorage|e] eqn:H4; simpl;
    [|by repeat split; try apply Hfalse].
  split; [done|]. split; [done|].
  by exists opts, p, identity, compute, image, blockStorage.
Qed.

End Client.

(** The claim that every operation returns a Forbidden error it gets. *)
Definition forbidden_always_surfaced (Provider ServiceClient Page : Type) : Prop :=
  ∀ (api : @API Provider ServiceClient Page) (r : Client) (k : Kind)
    (listopts : ListOpts) (object : list Resource) (id : string),
    k ≠ KUnsupported →
    (AllPages api k (serviceOf r k) (optsOf r k listopts) = Fail ErrDefault403 →
     snd (list_ api r k listopts object) = Some ErrDefault403) ∧
    (GetOne api k (serviceOf r k) id = Fail ErrDefault403 →
     snd (get api r k id) = Some ErrDefault403).

(** A service on which the user may neither list nor get anything, but
    may list the projects they are a member of. *)
Definition restrictedAPI : @API unit unit unit :=
  mkAPI
    (λ _, [])
    (Fail (ErrOther "no system pool"))
    (λ _, Ok ())
    (λ _ _ _, Ok ())
    (λ _, TokenCreateResult (Ok "user-1"))
    (λ _ _ _, Fail ErrDefault403)
    (λ _ _, Ok [mkRaw "p1" "demo" None; mkRaw "p2" "other" None])
    (λ _ _, Fail ErrDefault403)
    (λ _ _, Ok ())
    (λ _ _ _, Fail ErrDefault403).

Definition restrictedClient : @Client unit unit :=
  mkClient "https://keystone.example:5000/v3"
    (mkSecret {[ "projectName" := "demo" ]})
    (Some ()) (Some ()) (Some ()) (Some ()) (Some ()).

Example restricted_list_projects :
  list_ restrictedAPI restrictedClient KProject (mkListOpts "" "") []
  = ([Plain KProject (mkRaw "p1" "demo" None)], None).
Proof. vm_compute. reflexivity. Qed.

Example restricted_get_project :
  get restrictedAPI restrictedClient KProject "p1"
  = (Some (Plain KProject (mkRaw "p1" "demo" None)), None).
Proof. vm_compute. reflexivity. Qed.

Example restricted_list_servers :
  list_ restrictedAPI restrictedClient KVM (mkListOpts "" "") []
  = ([], Some ErrDefault403).
Proof. vm_compute. reflexivity. Qed.

(** C8, as stated, fails: listing projects on a service that answers
    Forbidden returns the user's own projects and no error. *)
Lemma forbidden_project_list_swallowed :
  ¬ forbidden_always_surfaced unit unit unit.
Proof.
  intros H.
  destruct (H restrictedAPI restrictedClient KProject (mkListOpts "" "") [] "p1")
    as [Hlist _]; [done|].
  specialize (Hlist eq_refl). vm_compute in Hlist. discriminate.
Qed.

Lemma forbidden_propagated_except_projects_witness :
  list_ restrictedAPI restrictedClient KVM (mkListOpts "" "") []
  = ([], Some ErrDefault403).
Proof.
  destruct (forbidden_propagated_except_projects restrictedAPI restrictedClient
              KVM (mkListOpts "" "") [] "vm-1" ErrDefault403) as [Hlist _].
  - discriminate.
  - apply Hlist. reflexivity.
Defined.

(** A cloud that serves every request, with one volume type that has no
    extra specs. *)
Definition openAPI : @API unit unit unit :=
  mkAPI
    (λ _, [])
    (Ok ["system root"])
    (λ _, Ok ())
    (λ _ _ _, Ok ())
    (λ _, TokenCreateResult (Ok "user-1"))
    (λ _ _ _, Ok ())
    (λ _ _, Ok [mkRaw "t1" "tripleo" None; mkRaw "t2" "ceph" (Some {[ "backend" := "rbd" ]})])
    (λ _ _, Ok ∅)
    (λ _ _, Ok ())
    (λ _ _ id, Ok (mkRaw id "" None)).

Lemma list_volume_types_have_specs_witness :
  ∃ volumeType,
    Plain KVolumeType (mkRaw "t1" "tripleo" (Some ∅)) = Plain KVolumeType volumeType ∧
    ExtraSpecs volumeType ≠ None.
Proof.
  apply (list_volume_types_have_specs openAPI restrictedClient (mkListOpts "" "") []
           [Plain KVolumeType (mkRaw "t1" "tripleo" (Some ∅));
            Plain KVolumeType (mkRaw "t2" "ceph" (Some {[ "backend" := "rbd" ]}))]).
  - vm_compute. reflexivity.
  - by left.
Defined.

End OpenStack.

(** ** Package [plan]: the KubeVirt convergence engine *)

Module Plan.

(** *** Annotations, labels and limits *)

Definition AnnDefaultNetwork := "v1.multus-cni.io/default-network".
Definition AnnKubevirtValidations := "vm.kubevirt.io/validations".
Definition AnnImporterPodName := "cdi.kubevirt.io/storage.import.importPodName".
Definition AnnOriginalName := "original-name".
Definition AnnOriginalID := "original-ID".
Definition AnnDeleteAfterCompletion := "cdi.kubevirt.io/storage.deleteAfterCompletion".
Definition NameMaxLength : Z := 63.

Definition kMigration := "migration".
Definition kPlan := "plan".
Definition kVM := "vmID".
Definition kApp := "forklift.app".

(** *** Kubernetes objects *)

Record OwnerReference := mkOwnerReference {
  ownerAPIVersion : string;
  ownerKind : string;
  ownerName : string;
  ownerUID : string;
  BlockOwnerDeletion : bool;
  Controller : bool
}.

Record ObjectMeta := mkMeta {
  Name : string;
  GenerateName : string;
  Namespace : string;
  UID : string;
  Labels : gmap string string;
  Annotations : gmap string string;
  OwnerReferences : list OwnerReference;
  Finalizers : list string;
  CreationTimestamp : Z
}.

Definition emptyMeta : ObjectMeta :=
  mkMeta "" "" "" "" ∅ ∅ [] [] 0.

Definition setName (v : string) (m : ObjectMeta) : ObjectMeta :=
  mkMeta v (GenerateName m) (Namespace m) (UID m) (Labels m) (Annotations m)
    (OwnerReferences m) (Finalizers m) (CreationTimestamp m).

Definition setNamespace (v : string) (m : ObjectMeta) : ObjectMeta :=
  mkMeta (Name m) (GenerateName m) v (UID m) (Labels m) (Annotations m)
    (OwnerReferences m) (Finalizers m) (CreationTimestamp m).

Definition setUID (v : string) (m : ObjectMeta) : ObjectMeta :=
  mkMeta (Name m) (GenerateName m) (Namespace m) v (Labels m) (Annotations m)
    (OwnerReferences m) (Finalizers m) (CreationTimestamp m).

Definition setLabels (v : gmap string string) (m : ObjectMeta) : ObjectMeta :=
  mkMeta (Name m) (GenerateName m) (Namespace m) (UID m) v (Annotations m)
    (OwnerReferences m) (Finalizers m) (CreationTimestamp m).

Definition setAnnotations (v : gmap string string) (m : ObjectMeta) : ObjectMeta :=
  mkMeta (Name m) (GenerateName m) (Namespace m) (UID m) (Labels m) v
    (OwnerReferences m) (Finalizers m) (CreationTimestamp m).

Definition setOwnerReferences (v : list OwnerReference) (m : ObjectMeta) : ObjectMeta :=
  mkMeta (Name m) (GenerateName m) (Namespace m) (UID m) (Labels m) (Annotations m)
    v (Finalizers m) (CreationTimestamp m).

Definition setFinalizers (v : list string) (m : ObjectMeta) : ObjectMeta :=
  mkMeta (Name m) (GenerateName m) (Namespace m) (UID m) (Labels m) (Annotations m)
    (OwnerReferences m) v (CreationTimestamp m).

(** [cnv.Volume]: its name and the claim it refers to, if any. *)
Record Volume := mkVolume {
  volumeName : string;
  ClaimName : option string
}.

Record PreferenceMatcher := mkPreferenceMatcher {
  preferenceName : string;
  preferenceKind : string
}.

(** [cnv.VirtualMachineInstanceTemplateSpec]; [Domain] stands for the
    hardware description, which only the Builder reads and writes. *)
Record VirtualMachineInstanceTemplateSpec := mkVMITemplate {
  templateLabels : gmap string string;
  Volumes : list Volume;
  Networks : list string;
  Domain : string
}.

Definition emptyVMITemplate : VirtualMachineInstanceTemplateSpec :=
  mkVMITemplate ∅ [] [] "".

Record VirtualMachineSpec := mkVMSpec {
  Running : option bool;
  Preference : option PreferenceMatcher;
  Template : option VirtualMachineInstanceTemplateSpec;
  DataVolumeTemplates : list string
}.

Record VirtualMachine := mkVM {
  vmMeta : ObjectMeta;
  Spec : VirtualMachineSpec
}.

(** [cdi.DataVolume]; [dvSource] stands for its spec. *)
Record DataVolume := mkDV {
  dvMeta : ObjectMeta;
  dvSource : string
}.

Inductive ClaimPhase := ClaimPending | ClaimBound | ClaimLost.

(** [core.PersistentVolumeMode]. *)
Inductive PersistentVolumeMode := PersistentVolumeBlock | PersistentVolumeFilesystem.

#[global] Instance PersistentVolumeMode_eq_dec : EqDecision PersistentVolumeMode.
Proof. solve_decision. Defined.

(** [core.PersistentVolumeClaim]: [VolumeMode] is [Spec.VolumeMode], a
    pointer. *)
Record PersistentVolumeClaim := mkPVC {
  pvcMeta : ObjectMeta;
  Phase : ClaimPhase;
  VolumeMode : option PersistentVolumeMode
}.

Record Pod := mkPod {
  podMeta : ObjectMeta;
  PodIP : string
}.

Record Secret := mkSecret {
  secretMeta : ObjectMeta;
  secretData : gmap string string;
  StringData : gmap string string
}.

Record ConfigMap := mkConfigMap {
  configMapMeta : ObjectMeta;
  configMapData : gmap string string;
  BinaryData : gmap string string
}.

Record Job := mkJob {
  jobMeta : ObjectMeta
}.

(** [template.Parameter] of the OpenShift API. *)
Record TemplateParameter := mkParameter {
  paramName : string;
  Value : string;
  Generate : string;
  paramFrom : string;
  Required : bool
}.

(** [template.Template]: its parameters and its objects, each a raw
    (undecoded) manifest. *)
Record OsTemplate := mkTemplate {
  templateMeta : ObjectMeta;
  Parameters : list TemplateParameter;
  Objects : list string
}.

Record VirtualMachinePreference := mkPreference {
  preferenceMeta : ObjectMeta
}.

Record VirtualMachineClusterPreference := mkClusterPreference {
  clusterPreferenceMeta : ObjectMeta
}.

Inductive Kind :=
  | KVirtualMachine | KDataVolume | KPersistentVolumeClaim | KPod | KSecret
  | KConfigMap | KJob | KTemplate | KPreference | KClusterPreference.

#[global] Instance Kind_eq_dec : EqDecision Kind.
Proof. solve_decision. Defined.

(** *** The destination cluster *)

(** The requests sent to the API server of the destination cluster. *)
Inductive Call :=
  | ListCall (k : Kind) (selector : gmap string string) (namespace : string)
  | GetCall (k : Kind) (namespace name : string)
  | CreateCall (k : Kind) (m : ObjectMeta)
  | UpdateCall (k : Kind) (m : ObjectMeta)
  | PatchCall (k : Kind) (m : ObjectMeta)
  | DeleteCall (k : Kind) (m : ObjectMeta).

(** The state of the destination cluster: the live objects of each kind;
    [faults], the failures the API server is going to answer the coming
    requests with ([None]: the request is served); the requests received
    so far, oldest first; and the counter behind generated names and
    UIDs. *)
Record Cluster := mkCluster {
  virtualMachines : list VirtualMachine;
  dataVolumes : list DataVolume;
  persistentVolumeClaims : list PersistentVolumeClaim;
  pods : list Pod;
  secrets : list Secret;
  configMaps : list ConfigMap;
  jobs : list Job;
  templates : list OsTemplate;
  preferences : list VirtualMachinePreference;
  clusterPreferences : list VirtualMachineClusterPreference;
  faults : list error;
  calls : list Call;
  serial : nat
}.

Definition setVirtualMachines v c :=
  mkCluster v (dataVolumes c) (persistentVolumeClaims c) (pods c) (secrets c)
    (configMaps c) (jobs c) (templates c) (preferences c) (clusterPreferences c)
    (faults c) (calls c) (serial c).

Definition setDataVolumes v c :=
  mkCluster (virtualMachines c) v (persistentVolumeClaims c) (pods c) (secrets c)
    (configMaps c) (jobs c) (templates c) (preferences c) (clusterPreferences c)
    (faults c) (calls c) (serial c).

Definition setPersistentVolumeClaims v c :=
  mkCluster (virtualMachines c) (dataVolumes c) v (pods c) (secrets c)
    (configMaps c) (jobs c) (templates c) (preferences c) (clusterPreferences c)
    (faults c) (calls c) (serial c).

Definition setPods v c :=
  mkCluster (virtualMachines c) (dataVolumes c) (persistentVolumeClaims c) v (secrets c)
    (configMaps c) (jobs c) (templates c) (preferences c) (clusterPreferences c)
    (faults c) (calls c) (serial c).

Definition setSecrets v c :=
  mkCluster (virtualMachines c) (dataVolumes c) (persistentVolumeClaims c) (pods c) v
    (configMaps c) (jobs c) (templates c) (preferences c) (clusterPreferences c)
    (faults c) (calls c) (serial c).

Definition setConfigMaps v c :=
  mkCluster (virtualMachines c) (dataVolumes c) (persistentVolumeClaims c) (pods c) (secrets c)
    v (jobs c) (templates c) (preferences c) (clusterPreferences c)
    (faults c) (calls c) (serial c).

Definition setJobs v c :=
  mkCluster (virtualMachines c) (dataVolumes c) (persistentVolumeClaims c) (pods c) (secrets c)
    (configMaps c) v (templates c) (preferences c) (clusterPreferences c)
    (faults c) (calls c) (serial c).

Definition setTemplates v c :=
  mkCluster (virtualMachines c) (dataVolumes c) (persistentVolumeClaims c) (pods c) (secrets c)
    (configMaps c) (jobs c) v (preferences c) (clusterPreferences c)
    (faults c) (calls c) (serial c).

Definition setPreferences v c :=
  mkCluster (virtualMachines c) (dataVolumes c) (persistentVolumeClaims c) (pods c) (secrets c)
    (configMaps c) (jobs c) (templates c) v (clusterPreferences c)
    (faults c) (calls c) (serial c).

Definition setClusterPreferences v c :=
  mkCluster (virtualMachines c) (dataVolumes c) (persistentVolumeClaims c) (pods c) (secrets c)
    (configMaps c) (jobs c) (templates c) (preferences c) v
    (faults c) (calls c) (serial c).

Definition setFaults v c :=
  mkCluster (virtualMachines c) (dataVolumes c) (persistentVolumeClaims c) (pods c) (secrets c)
    (configMaps c) (jobs c) (templates c) (preferences c) (clusterPreferences c)
    v (calls c) (serial c).

Definition setCalls v c :=
  mkCluster (virtualMachines c) (dataVolumes c) (persistentVolumeClaims c) (pods c) (secrets c)
    (configMaps c) (jobs c) (templates c) (preferences c) (clusterPreferences c)
    (faults c) v (serial c).

Definition setSerial v c :=
  mkCluster (virtualMachines c) (dataVolumes c) (persistentVolumeClaims c) (pods c) (secrets c)
    (configMaps c) (jobs c) (templates c) (preferences c) (clusterPreferences c)
    (faults c) (calls c) v.

(** [client.Object]: what the generic client needs of a kind of object. *)
Class Object (A : Type) := {
  kind : Kind;
  meta : A → ObjectMeta;
  withMeta : ObjectMeta → A → A;
  items : Cluster → list A;
  setItems : list A → Cluster → Cluster
}.

#[global] Instance VirtualMachine_Object : Object VirtualMachine :=
  {| kind := KVirtualMachine; meta := vmMeta;
     withMeta m x := mkVM m (Spec x);
     items := virtualMachines; setItems := setVirtualMachines |}.

#[global] Instance DataVolume_Object : Object DataVolume :=
  {| kind := KDataVolume; meta := dvMeta;
     withMeta m x := mkDV m (dvSource x);
     items := dataVolumes; setItems := setDataVolumes |}.

#[global] Instance PersistentVolumeClaim_Object : Object PersistentVolumeClaim :=
  {| kind := KPersistentVolumeClaim; meta := pvcMeta;
     withMeta m x := mkPVC m (Phase x) (VolumeMode x);
     items := persistentVolumeClaims; setItems := setPersistentVolumeClaims |}.

#[global] Instance Pod_Object : Object Pod :=
  {| kind := KPod; meta := podMeta;
     withMeta m x := mkPod m (PodIP x);
     items := pods; setItems := setPods |}.

#[global] Instance Secret_Object : Object Secret :=
  {| kind := KSecret; meta := secretMeta;
     withMeta m x := mkSecret m (secretData x) (StringData x);
     items := secrets; setItems := setSecrets |}.

#[global] Instance ConfigMap_Object : Object ConfigMap :=
  {| kind := KConfigMap; meta := configMapMeta;
     withMeta m x := mkConfigMap m (configMapData x) (BinaryData x);
     items := configMaps; setItems := setConfigMaps |}.

#[global] Instance Job_Object : Object Job :=
  {| kind := KJob; meta := jobMeta;
     withMeta m x := mkJob m;
     items := jobs; setItems := setJobs |}.

#[global] Instance OsTemplate_Object : Object OsTemplate :=
  {| kind := KTemplate; meta := templateMeta;
     withMeta m x := mkTemplate m (Parameters x) (Objects x);
     items := templates; setItems := setTemplates |}.

#[global] Instance VirtualMachinePreference_Object : Object VirtualMachinePreference :=
  {| kind := KPreference; meta := preferenceMeta;
     withMeta m x := mkPreference m;
     items := preferences; setItems := setPreferences |}.

#[global] Instance VirtualMachineClusterPreference_Object :
  Object VirtualMachineClusterPreference :=
  {| kind := KClusterPreference; meta := clusterPreferenceMeta;
     withMeta m x := mkClusterPreference m;
     items := clusterPreferences; setItems := setClusterPreferences |}.

(** Calls to the API server thread the cluster state. *)
Definition M (A : Type) : Type := Cluster → A * Cluster.

Definition ret {A : Type} (a : A) : M A := λ c, (a, c).

Definition bind {A B : Type} (m : M A) (f : A → M B) : M B :=
  λ c, let '(a, c') := m c in f a c'.

Notation "'let*' p := m 'in' k" := (bind m (λ p, k))
  (at level 10, p pattern, m at level 100, k at level 200).

(** [labels.SelectorFromSet(selector)] matches the label sets that hold
    every pair of [selector]. *)
Definition matchesSelector (selector labels : gmap string string) : bool :=
  bool_decide (map_Forall (λ k v, labels !! k = Some v) selector).

(** [ListOptions.Namespace]: the empty namespace lists all of them. *)
Definition inNamespace (namespace : string) (m : ObjectMeta) : bool :=
  bool_decide (namespace = "") || bool_decide (Namespace m = namespace).

Definition selected (selector : gmap string string) (namespace : string)
    (m : ObjectMeta) : bool :=
  matchesSelector selector (Labels m) && inNamespace namespace m.

Definition sameKey (namespace name : string) (m : ObjectMeta) : bool :=
  bool_decide (Namespace m = namespace) && bool_decide (Name m = name).

Definition record (call : Call) : M () :=
  λ c, ((), setCalls (calls c ++ [call]) c).

(** The answer the API server has in store for the next request. *)
Definition nextFault : M error :=
  λ c, match faults c with
       | [] => (None, c)
       | f :: fs => (f, setFaults fs c)
       end.

Definition errNotFound : Err := mkErr ReasonNotFound "not found" false.
Definition errAlreadyExists : Err := mkErr ReasonAlreadyExists "already exists" false.
Definition errInvalid : Err := mkErr ReasonUnknown "name or generateName is required" false.

Section ClientCalls.
Context {A : Type} `{Object A}.

(** What the API server holds of this kind when the request arrives. *)
Definition stored : M (list A) := λ c, (items c, c).

(** [Client.List] with a label selector and a namespace. *)
Definition List (selector : gmap string string) (namespace : string)
  : M (list A * error) :=
  let* all := stored in
  let* _ := record (ListCall kind selector namespace) in
  let* fault := nextFault in
  match fault with
  | Some e => ret ([], Some e)
  | None => ret (List.filter (λ x, selected selector namespace (meta x)) all, None)
  end.

(** [Client.Get] by namespace and name. *)
Definition Get (namespace name : string) : M (option A * error) :=
  let* all := stored in
  let* _ := record (GetCall kind namespace name) in
  let* fault := nextFault in
  match fault with
  | Some e => ret (None, Some e)
  | None =>
      match List.find (λ x, sameKey namespace name (meta x)) all with
      | Some x => ret (Some x, None)
      | None => ret (None, Some errNotFound)
      end
  end.

(** The name the server gives an object: its own, or the generated name
    completed with a suffix. *)
Definition serverName (m : ObjectMeta) (suffix : nat) : string :=
  if bool_decide (Name m = "") then
    if bool_decide (GenerateName m = "") then ""
    else GenerateName m +:+ pretty suffix
  else Name m.

(** [Client.Create]: the server completes a generated name, refuses a
    name that is taken, and gives the object its UID. The object comes
    back as stored. *)
Definition Create (x : A) : M (A * error) :=
  let* all := stored in
  let* _ := record (CreateCall kind (meta x)) in
  let* fault := nextFault in
  match fault with
  | Some e => ret (x, Some e)
  | None =>
      λ c,
        let m := meta x in
        let name := serverName m (serial c) in
        if bool_decide (name = "") then ((x, Some errInvalid), c)
        else if existsb (λ y, sameKey (Namespace m) name (meta y)) all
        then ((x, Some errAlreadyExists), c)
        else
          let x' := withMeta (setUID ("uid-" +:+ pretty (serial c)) (setName name m)) x in
          ((x', None), setSerial (S (serial c)) (setItems (all ++ [x']) c))
  end.

Definition replaceItem (x : A) (l : list A) : list A :=
  (λ y, if sameKey (Namespace (meta x)) (Name (meta x)) (meta y) then x else y) <$> l.

Definition store (call : Call) (x : A) : M error :=
  let* all := stored in
  let* _ := record call in
  let* fault := nextFault in
  match fault with
  | Some e => ret (Some e)
  | None =>
      if existsb (λ y, sameKey (Namespace (meta x)) (Name (meta x)) (meta y)) all
      then λ c, (None, setItems (replaceItem x all) c)
      else ret (Some errNotFound)
  end.

(** [Client.Update] and [Client.Patch] with a merge patch from a copy of
    the object: the stored object takes the new content. *)
Definition Update (x : A) : M error := store (UpdateCall kind (meta x)) x.
Definition Patch (x : A) : M error := store (PatchCall kind (meta x)) x.

(** [Client.Delete]. Finalizers and deletion timestamps are left out: a
    deleted object is gone at once. *)
Definition Delete (x : A) : M error :=
  let* all := stored in
  let* _ := record (DeleteCall kind (meta x)) in
  let* fault := nextFault in
  match fault with
  | Some e => ret (Some e)
  | None =>
      if existsb (λ y, sameKey (Namespace (meta x)) (Name (meta x)) (meta y)) all
      then λ c,
        (None,
         setItems
           (List.filter (λ y, negb (sameKey (Namespace (meta x)) (Name (meta x)) (meta y)))
              all) c)
      else ret (Some errNotFound)
  end.

End ClientCalls.

(** *** The plan context *)

Inductive ProviderType := VSphere | OVirt | OpenStack | OpenShift | Ova.

Inductive VMPowerState := VMPowerStateOn | VMPowerStateOff | VMPowerStateUnknown.

#[global] Instance VMPowerState_eq_dec : EqDecision VMPowerState.
Proof. solve_decision. Defined.

(** [ref.Ref]. *)
Record Ref := mkRef {
  ID : string;
  refName : string
}.

(** [plan.VMStatus], which embeds the [Ref]: [vm.ID] and [vm.Name] are the
    fields of [vm.Ref]. *)
Record VMStatus := mkVMStatus {
  vmRef : Ref;
  RestorePowerState : VMPowerState;
  Firmware : string
}.

Definition vmName (vm : VMStatus) : string := refName (vmRef vm).

Definition setVmName (name : string) (vm : VMStatus) : VMStatus :=
  mkVMStatus (mkRef (ID (vmRef vm)) name) (RestorePowerState vm) (Firmware vm).

Definition setFirmware (firmware : string) (vm : VMStatus) : VMStatus :=
  mkVMStatus (vmRef vm) (RestorePowerState vm) firmware.

(** [plancontext.Context], as far as the engine reads it. *)
Record Context := mkContext {
  planName : string;
  planUID : string;
  TargetNamespace : string;
  migrationUID : string;
  sourceProviderType : ProviderType
}.

(** [adapter.Builder], the provider adapter: the capabilities used
    here. *)
Record Builder := mkBuilder {
  ResolveDataVolumeIdentifier : DataVolume → string;
  builderVirtualMachine :
    Ref → VirtualMachineSpec → list PersistentVolumeClaim → VirtualMachineSpec * error;
  PreferenceName : Ref → ConfigMap → string * error;
  TemplateLabels : Ref → gmap string string * error;
  builderSecret : Ref → Secret → Secret * error;
  builderConfigMap : Ref → ConfigMap → ConfigMap * error
}.

(** [Settings]: the names of the OS maps of the providers. *)
Record SettingsT := mkSettings {
  VsphereOsConfigMap : string;
  OvirtOsConfigMap : string
}.

(** A loop over a slice that returns at the first error. *)
Fixpoint forEach {A : Type} (f : A → M error) (l : list A) : M error :=
  match l with
  | [] => ret None
  | x :: l =>
      let* err := f x in
      match err with
      | Some e => ret (Some e)
      | None => forEach f l
      end
  end.

(** [k8svalidation.IsDNS1123Label]: the value is at most 63 bytes long
    and matches [[a-z0-9]([-a-z0-9]*[a-z0-9])?]. The result lists what is
    wrong with it. *)
Definition isLowerAlnum (c : ascii) : bool :=
  let n := nat_of_ascii c in
  ((97 <=? n) && (n <=? 122) || (48 <=? n) && (n <=? 57))%nat.

Definition isLabelChar (c : ascii) : bool :=
  isLowerAlnum c || bool_decide (c = "-"%char).

Definition dns1123LabelRegexp (value : string) : bool :=
  let cs := list_ascii_of_string value in
  match cs, last cs with
  | c :: _, Some d => isLowerAlnum c && isLowerAlnum d && forallb isLabelChar cs
  | _, _ => false
  end.

Definition DNS1123LabelMaxLength : nat := 63.

Definition IsDNS1123Label (value : string) : list string :=
  (if (DNS1123LabelMaxLength <? String.length value)%nat
   then ["must be no more than 63 characters"] else [])
  ++
  (if negb (dns1123LabelRegexp value)
   then ["a lowercase RFC 1123 label must consist of lower case alphanumeric characters or '-', and must start and end with an alphanumeric character"]
   else []).

(** What [virtualMachine] returns: an object, with or without an error,
    or an error alone. *)
Inductive Built :=
  | Object_ (object : VirtualMachine) (err : error)
  | NoObject (err : Err).

(** [sort.Slice] with [less i j] iff item [j] was created before item
    [i]: the insertion sort the Go runtime uses on short slices (up to 12
    items). An item moves towards the front past every item created
    before it. [insertNewest] works on the sorted prefix, last item
    first. *)
Fixpoint insertNewest (x : OsTemplate) (prefix : list OsTemplate) : list OsTemplate :=
  match prefix with
  | [] => [x]
  | y :: prefix' =>
      if CreationTimestamp (templateMeta y) <? CreationTimestamp (templateMeta x)
      then y :: insertNewest x prefix'
      else x :: prefix
  end.

Definition sortNewestFirst (items : list OsTemplate) : list OsTemplate :=
  rev (fold_left (λ prefix x, insertNewest x prefix) items []).

(** *** The template that is chosen *)

Definition created (x : OsTemplate) : Z := CreationTimestamp (templateMeta x).

(** The sorted prefix, last item first, ends on an item that no other
    item of it is newer than. *)
Definition newestLast (prefix : list OsTemplate) : Prop :=
  ∀ newest, last prefix = Some newest →
    ∀ x, x ∈ prefix → created x ≤ created newest.

Lemma insertNewest_elem x prefix y :
  y ∈ insertNewest x prefix ↔ y = x ∨ y ∈ prefix.
Proof.
  induction prefix as [|z prefix IH]; simpl.
  - rewrite list_elem_of_singleton, elem_of_nil. tauto.
  - destruct (_ <? _); rewrite !elem_of_cons; [rewrite IH|]; tauto.
Qed.

Lemma insertNewest_cons x prefix : ∃ y l, insertNewest x prefix = y :: l.
Proof. destruct prefix as [|z prefix]; simpl; [|destruct (_ <? _)]; eauto. Qed.

Lemma insertNewest_newestLast x prefix :
  newestLast prefix → newestLast (insertNewest x prefix).
Proof.
  unfold newestLast. induction prefix as [|z prefix IH]; intros Hp newest.
  - simpl. intros [= <-] y ->%list_elem_of_singleton. lia.
  - cbn [insertNewest]. fold (created z) (created x).
    destruct (Z.ltb_spec (created z) (created x)) as [Hlt|Hge].
    + destruct (insertNewest_cons x prefix) as (y0 & l0 & Heq).
      rewrite Heq, last_cons_cons, <- Heq. intros Hlast y Hy.
      assert (∀ y, y ∈ insertNewest x prefix → created y ≤ created newest) as Hall.
      { apply IH; [|done]. intros newest' Hlast' y' Hy'.
        apply Hp; [|by right]. destruct prefix; [done|]. by rewrite last_cons_cons. }
      apply elem_of_cons in Hy as [->|Hy]; [|by apply Hall].
      assert (created x ≤ created newest); [|lia].
      apply Hall, insertNewest_elem. by left.
    + rewrite last_cons_cons. intros Hlast y Hy.
      apply elem_of_cons in Hy as [->|Hy]; [|by apply Hp].
      assert (created z ≤ created newest); [|lia].
      apply Hp; [done|by left].
Qed.

Lemma sort_steps (l prefix : list OsTemplate) :
  newestLast prefix →
  newestLast (fold_left (λ prefix x, insertNewest x prefix) l prefix) ∧
  ∀ y, y ∈ fold_left (λ prefix x, insertNewest x prefix) l prefix ↔ y ∈ l ∨ y ∈ prefix.
Proof.
  revert prefix. induction l as [|x l IH]; intros prefix Hp; simpl.
  - split; [done|]. intros y. rewrite elem_of_nil. tauto.
  - destruct (IH (insertNewest x prefix)) as [Hn He];
      [by apply insertNewest_newestLast|].
    split; [done|]. intros y. rewrite He, insertNewest_elem, elem_of_cons. tauto.
Qed.

Lemma sortNewestFirst_head (l : list OsTemplate) newest rest :
  sortNewestFirst l = newest :: rest →
  newest ∈ l ∧ ∀ x, x ∈ l → created x ≤ created newest.
Proof.
  unfold sortNewestFirst. intros Hrev.
  destruct (sort_steps l []) as [Hn He]; [by intros ? [=]|].
  set (sorted := fold_left _ l []) in *.
  assert (sorted = rev rest ++ [newest]) as Hs.
  { rewrite <- (rev_involutive sorted), Hrev. done. }
  assert (last sorted = Some newest) as Hlast by (rewrite Hs; apply last_snoc).
  split.
  - assert (newest ∈ sorted) as Hin.
    { rewrite Hs, elem_of_app, list_elem_of_singleton. by right. }
    apply He in Hin as [Hin|Hin%elem_of_nil]; done.
  - intros x Hx. apply (Hn newest Hlast). apply He. by left.
Qed.


(** *** The conversion pod's HTTP server *)

(** [strings.Contains]. *)
Fixpoint Contains (s substr : string) : bool :=
  String.prefix substr s ||
  match s with
  | EmptyString => false
  | String _ s' => Contains s' substr
  end.

Inductive Method := GET | POST.

Record Request := mkRequest {
  method : Method;
  url : string
}.

(** What [http.Get] and [http.Post] return: an error, or a response
    whose body [io.ReadAll] reads to the end or fails on. *)
Inductive Response :=
  | Failed (msg : string)
  | Responded (body : string) (readErr : option string).

(** The network as the controller sees it: the answers the coming
    requests are going to get, and the requests sent so far. A request
    that nothing is listening for is refused. *)
Record Net := mkNet {
  answers : list Response;
  sent : list Request
}.

Definition answer (n : Net) : Response :=
  match answers n with
  | a :: _ => a
  | [] => Failed "dial tcp: connect: connection refused"
  end.

Definition httpDo (req : Request) (n : Net) : Response * Net :=
  (answer n, mkNet (tail (answers n)) (sent n ++ [req])).

(** [plan.Step], as far as the engine writes it: [MarkCompleted] stamps
    the time of completion. *)
Record Progress := mkProgress {
  progressCompleted : Z;
  Total : Z
}.

Record Step := mkStep {
  stepName : string;
  stepCompleted : option Z;
  progress : Progress
}.

Definition MarkCompleted (at_ : Z) (step : Step) : Step :=
  mkStep (stepName step) (Some at_) (progress step).

Definition setProgressCompleted (v : Z) (step : Step) : Step :=
  mkStep (stepName step) (stepCompleted step) (mkProgress v (Total (progress step))).

Section KubeVirt.

(** The receiver [r]: the plan context and the Builder. What lives
    outside the destination cluster is given with it: the settings, the
    OS map as the controller's own cluster serves it, and the source
    inventory's answer on a VM reference. *)
Variable r : Context.
Variable builder : Builder.
Variable Settings : SettingsT.
Variable getOsMap : string → ConfigMap * error.
Variable inventoryVM : Ref → error.

(** The clock that seeds the generator of [processTemplate], the
    expression generator of [openshift/library-go], the substitution of
    the parameters into the objects of a template (its result and its
    errors), and the decoding of a raw object into a VirtualMachine. *)
Variable now : Z.
Variable GenerateValue : Z → string → string + string.
Variable substituteParameters :
  list TemplateParameter → list string → list string * list string.
Variable decodeVirtualMachine : string → VirtualMachine + Err.

(** [changeVmNameDNS1123] is not among the sources: it is a method of
    [KubeVirt] that takes the name and the target namespace, may look
    into the cluster, and returns the new name or an error. *)
Variable changeVmNameDNS1123 : string → string → Cluster → string * error.

(** *** Labels *)

Definition planLabels : gmap string string :=
  <[kPlan := planUID r]> {[ kMigration := migrationUID r ]}.

Definition vmLabels (vmRef : Ref) : gmap string string :=
  <[kVM := ID vmRef]> planLabels.

Definition vmAllButMigrationLabels (vmRef : Ref) : gmap string string :=
  delete kMigration (vmLabels vmRef).

Definition consumerLabels (vmRef : Ref) (filterOutMigrationLabel : bool)
  : gmap string string :=
  <[kApp := "consumer"]>
    (if filterOutMigrationLabel then vmAllButMigrationLabels vmRef
     else vmLabels vmRef).

Definition conversionLabels (vmRef : Ref) (filterOutMigrationLabel : bool)
  : gmap string string :=
  <[kApp := "virt-v2v"]>
    (if filterOutMigrationLabel then vmAllButMigrationLabels vmRef
     else vmLabels vmRef).

(** *** Volumes *)

Definition isDataVolumeExistsInList (dv : DataVolume) (dataVolumeList : list DataVolume)
  : bool :=
  existsb
    (λ item, bool_decide (ResolveDataVolumeIdentifier builder dv
                          = ResolveDataVolumeIdentifier builder item))
    dataVolumeList.

(** The loop of [EnsureDataVolumes]. *)
Definition createMissing (dataVolumeList : list DataVolume) : list DataVolume → M error :=
  forEach (λ dv,
    if negb (isDataVolumeExistsInList dv dataVolumeList) then
      let* (_, err) := Create dv in
      ret (Wrap err)
    else ret None).

Definition EnsureDataVolumes (vm : VMStatus) (dataVolumes : list DataVolume) : M error :=
  let* (dataVolumeList, err) := List (vmLabels (vmRef vm)) (TargetNamespace r) in
  match err with
  | Some _ => ret (Wrap err)
  | None => createMissing dataVolumeList dataVolumes
  end.

Definition getDVs (vm : VMStatus) : M (list DataVolume * error) :=
  let* (dvsList, err) := List (vmLabels (vmRef vm)) (TargetNamespace r) in
  match err with
  | Some _ => ret ([], Wrap err)
  | None => ret (dvsList, None)
  end.

Definition DeleteDataVolumes (vm : VMStatus) : M error :=
  let* (dvs, err) := getDVs vm in
  match err with
  | Some _ => ret (Wrap err)
  | None => forEach (λ dv : DataVolume, Delete dv) dvs
  end.

Definition getPVCs (vmRef : Ref) : M (list PersistentVolumeClaim * error) :=
  let* (pvcsList, err) :=
    List (<[kVM := ID vmRef]> {[ "migration" := migrationUID r ]}) "" in
  match err with
  | Some _ => ret ([], Wrap err)
  | None => ret (pvcsList, None)
  end.

(** *** Teardown *)

Definition DeleteObject {A : Type} `{Object A} (object : A) : M error :=
  let* err := Delete object in
  match err with
  | Some _ => if IsNotFound err then ret None else ret (Wrap err)
  | None => ret None
  end.

Definition DeleteSecret (vm : VMStatus) : M error :=
  let* (list, err) := List (vmAllButMigrationLabels (vmRef vm)) (TargetNamespace r) in
  match err with
  | Some _ => ret (Wrap err)
  | None => forEach (λ object : Secret, DeleteObject object) list
  end.

Definition DeleteConfigMap (vm : VMStatus) : M error :=
  let* (list, err) := List (vmAllButMigrationLabels (vmRef vm)) (TargetNamespace r) in
  match err with
  | Some _ => ret (Wrap err)
  | None => forEach (λ object : ConfigMap, DeleteObject object) list
  end.

Definition DeleteHookJobs (vm : VMStatus) : M error :=
  let* (list, err) := List (vmAllButMigrationLabels (vmRef vm)) (TargetNamespace r) in
  match err with
  | Some _ => ret (Wrap err)
  | None => forEach (λ object : Job, DeleteObject object) list
  end.

(** [DeleteVM]: the delete asks for foreground propagation; here the
    VirtualMachine itself goes. *)
Definition DeleteVM (vm : VMStatus) : M error :=
  let* (list, err) := List (vmAllButMigrationLabels (vmRef vm)) (TargetNamespace r) in
  match err with
  | Some _ => ret (Wrap err)
  | None =>
      forEach (λ object : VirtualMachine,
        let* err := Delete object in
        match err with
        | Some _ => if IsNotFound err then ret None else ret (Wrap err)
        | None => ret None
        end) list
  end.

Definition GetPodsWithLabels (podLabels : gmap string string) : M (list Pod * error) :=
  let* (pods, err) := List podLabels (TargetNamespace r) in
  match err with
  | Some _ => ret ([], Wrap err)
  | None => ret (pods, None)
  end.

Definition GetPods (vm : VMStatus) : M (list Pod * error) :=
  GetPodsWithLabels (vmAllButMigrationLabels (vmRef vm)).

Definition GetGuestConversionPod (vm : VMStatus) : M (option Pod * error) :=
  let* (list, err) := List (conversionLabels (vmRef vm) false) (TargetNamespace r) in
  match err with
  | Some _ => ret (None, Wrap err)
  | None => ret (head list, None)
  end.

Definition DeletePVCConsumerPod (vm : VMStatus) : M error :=
  let* (list, err) := GetPodsWithLabels (consumerLabels (vmRef vm) true) in
  match err with
  | Some _ => ret err
  | None => forEach (λ object : Pod, DeleteObject object) list
  end.

Definition DeleteGuestConversionPod (vm : VMStatus) : M error :=
  let* (list, err) := GetPodsWithLabels (conversionLabels (vmRef vm) true) in
  match err with
  | Some _ => ret (Wrap err)
  | None => forEach (λ object : Pod, DeleteObject object) list
  end.

Definition deleteCorrespondingPrimePVC (pvc : PersistentVolumeClaim) : M error :=
  let* (primePVC, err) :=
    Get (A := PersistentVolumeClaim) (TargetNamespace r) ("prime-" +:+ UID (pvcMeta pvc)) in
  match err, primePVC with
  | Some _, _ => if IsNotFound err then ret None else ret err
  | None, Some primePVC =>
      let* err := DeleteObject primePVC in
      if negb (isNil err) && negb (IsNotFound err) then ret err else ret None
  | None, None => ret None
  end.

Definition deletePopulatedPVC (pvc : PersistentVolumeClaim) : M error :=
  let* err := DeleteObject pvc in
  match err with
  | Some _ => if IsNotFound err then ret None else ret err
  | None =>
      let pvc := mkPVC (setFinalizers [] (pvcMeta pvc)) (Phase pvc) (VolumeMode pvc) in
      Patch pvc
  end.

Definition DeletePopulatedPVCs (vm : VMStatus) : M error :=
  let* (pvcs, err) := getPVCs (vmRef vm) in
  match err with
  | Some _ => ret err
  | None =>
      forEach (λ pvc,
        let* err := deleteCorrespondingPrimePVC pvc in
        match err with
        | Some _ => ret err
        | None => deletePopulatedPVC pvc
        end) pvcs
  end.

(** *** Target VM synthesis *)

Definition emptyVm (vm : VMStatus) : VirtualMachine :=
  mkVM
    (setName (vmName vm)
       (setLabels (vmLabels (vmRef vm))
          (setNamespace (TargetNamespace r) emptyMeta)))
    (mkVMSpec None None (Some emptyVMITemplate) []).

Definition getOsMapConfig (providerType : ProviderType) : ConfigMap * error :=
  let get configMapName :=
    let '(configMap, err) := getOsMap configMapName in
    (configMap, Wrap err) in
  match providerType with
  | VSphere => get (VsphereOsConfigMap Settings)
  | OVirt => get (OvirtOsConfigMap Settings)
  | _ => (mkConfigMap emptyMeta ∅ ∅, None)
  end.

Definition getVirtualMachinePreference (preferenceName : string)
  : M (string * string * error) :=
  let* (_, err) :=
    Get (A := VirtualMachinePreference) (TargetNamespace r) preferenceName in
  match err with
  | Some _ => ret ("", "", err)
  | None => ret (preferenceName, "VirtualMachinePreference", None)
  end.

Definition getVirtualMachineClusterPreference (preferenceName : string)
  : M (string * string * error) :=
  let* (_, err) :=
    Get (A := VirtualMachineClusterPreference) "" preferenceName in
  match err with
  | Some _ => ret ("", "", err)
  | None => ret (preferenceName, "VirtualMachineClusterPreference", None)
  end.

Definition getPreference (preferenceName : string) : M (string * string * error) :=
  let* (name, kind, err) := getVirtualMachinePreference preferenceName in
  match err with
  | Some _ => getVirtualMachineClusterPreference preferenceName
  | None => ret (name, kind, None)
  end.

(** [vmPreference]: the VM, or the error that made the strategy fail. *)
Definition vmPreference (vm : VMStatus) : M (VirtualMachine + Err) :=
  match getOsMapConfig (sourceProviderType r) with
  | (_, Some err) => ret (inr err)
  | (config, None) =>
      match PreferenceName builder (vmRef vm) config with
      | (_, Some err) => ret (inr err)
      | (preferenceName, None) =>
          if bool_decide (preferenceName = "")
          then ret (inr (mkErr ReasonUnknown "couldn't find a corresponding preference" true))
          else
            let* (preferenceName, kind, err) := getPreference preferenceName in
            match err with
            | Some err => ret (inr err)
            | None =>
                let virtualMachine := emptyVm vm in
                ret (inl (mkVM (vmMeta virtualMachine)
                            (mkVMSpec (Running (Spec virtualMachine))
                               (Some (mkPreferenceMatcher preferenceName kind))
                               (Template (Spec virtualMachine))
                               (DataVolumeTemplates (Spec virtualMachine)))))
            end
      end
  end.

Definition findTemplate (vm : VMStatus) : M (OsTemplate + Err) :=
  match TemplateLabels builder (vmRef vm) with
  | (_, Some err) => ret (inr err)
  | (templateLabels, None) =>
      let* (templateList, err) := List templateLabels "openshift" in
      match Wrap err with
      | Some err => ret (inr err)
      | None =>
          match templateList with
          | [] => ret (inr (mkErr ReasonUnknown "No matching templates found" true))
          | [tmpl] => ret (inl tmpl)
          | _ =>
              match sortNewestFirst templateList with
              | tmpl :: _ => ret (inl tmpl)
              | [] => ret (inr (mkErr ReasonUnknown "No matching templates found" true))
              end
          end
      end
  end.

(** The loop of [processTemplate] over the parameters. *)
Definition setParameterValues (vm : VMStatus) (parameters : list TemplateParameter)
  : list TemplateParameter :=
  (λ param,
     mkParameter (paramName param)
       (if bool_decide (paramName param = "NAME") then vmName vm else "other")
       (Generate param) (paramFrom param) (Required param)) <$> parameters.

(** [Processor.GenerateParameterValues] of [openshift/library-go]: a
    parameter that has a value keeps it; an empty one that names a
    generator gets a generated value ("expression" is the one generator
    [processTemplate] registers); an empty required one is an error. *)
Fixpoint GenerateParameterValues (seed : Z) (parameters : list TemplateParameter)
  : list TemplateParameter * list string :=
  match parameters with
  | [] => ([], [])
  | param :: rest =>
      let '(rest', errs) := GenerateParameterValues seed rest in
      if negb (bool_decide (Value param = "")) then (param :: rest', errs)
      else if negb (bool_decide (Generate param = "")) then
        if bool_decide (Generate param = "expression") then
          match GenerateValue seed (paramFrom param) with
          | inl value =>
              (mkParameter (paramName param) value (Generate param)
                 (paramFrom param) (Required param) :: rest',
               if bool_decide (value = "") && Required param
               then ("parameter " +:+ paramName param +:+ " is required and must be specified") :: errs
               else errs)
          | inr e => (param :: rest', e :: errs)
          end
        else (param :: rest', ("Unknown generator name " +:+ Generate param) :: errs)
      else if Required param
      then (param :: rest',
            ("parameter " +:+ paramName param +:+ " is required and must be specified") :: errs)
      else (param :: rest', errs)
  end.

(** [Processor.Process]: generate the missing values, then substitute
    the parameters into the objects. *)
Definition Process (seed : Z) (tmpl : OsTemplate) : OsTemplate * list string :=
  let '(parameters, errs) := GenerateParameterValues seed (Parameters tmpl) in
  match errs with
  | _ :: _ => (mkTemplate (templateMeta tmpl) parameters (Objects tmpl), errs)
  | [] =>
      let '(objects, errs) := substituteParameters parameters (Objects tmpl) in
      (mkTemplate (templateMeta tmpl) parameters objects, errs)
  end.

Definition processTemplate (vm : VMStatus) (tmpl : OsTemplate) : OsTemplate * error :=
  let tmpl :=
    mkTemplate (templateMeta tmpl) (setParameterValues vm (Parameters tmpl))
      (Objects tmpl) in
  let '(tmpl, errs) := Process now tmpl in
  match errs with
  | _ :: _ =>
      (tmpl, New ("Failed to process template: " +:+ String.concat ", " errs))
  | [] => (tmpl, None)
  end.

Definition decodeTemplate (tmpl : OsTemplate) : VirtualMachine + Err :=
  match Objects tmpl with
  | [] => inr (mkErr ReasonUnknown "Could not find VirtualMachine in Template objects." true)
  | object :: _ =>
      match decodeVirtualMachine object with
      | inr err => inr (mkErr (reason err) (message err) true)
      | inl vm => inl vm
      end
  end.

(** [vmTemplate]: [Some] stands for [ok = true]. *)
Definition vmTemplate (vm : VMStatus) : M (option VirtualMachine) :=
  let* found := findTemplate vm in
  match found with
  | inr _ => ret None
  | inl tmpl =>
      match processTemplate vm tmpl with
      | (_, Some _) => ret None
      | (tmpl, None) =>
          match decodeTemplate tmpl with
          | inr _ => ret None
          | inl virtualMachine =>
              let template :=
                match Template (Spec virtualMachine) with
                | None => emptyVMITemplate
                | Some template => template
                end in
              ret (Some
                (mkVM
                   (setAnnotations
                      (delete AnnKubevirtValidations (Annotations (vmMeta virtualMachine)))
                      (setNamespace (TargetNamespace r)
                         (setName (vmName vm)
                            (setLabels
                               (vmLabels (vmRef vm) ∪ Labels (vmMeta virtualMachine))
                               (vmMeta virtualMachine)))))
                   (mkVMSpec (Running (Spec virtualMachine))
                      (Preference (Spec virtualMachine))
                      (Some (mkVMITemplate (templateLabels template) [] []
                               (Domain template)))
                      [])))
          end
      end
  end.

(** The three strategies of [virtualMachine], in their order. *)
Definition synthesize (vm : VMStatus) : M VirtualMachine :=
  let* preferred := vmPreference vm in
  match preferred with
  | inl object => ret object
  | inr _ =>
      let* templated := vmTemplate vm in
      match templated with
      | Some object => ret object
      | None => ret (emptyVm vm)
      end
  end.

(** What [virtualMachine] does to the object of the strategy that won,
    before the Builder sees it. *)
Definition finish (vm : VMStatus) (originalName : string) (object : VirtualMachine)
  : VirtualMachine :=
  let template :=
    match Template (Spec object) with
    | None => emptyVMITemplate
    | Some template => template
    end in
  let template :=
    mkVMITemplate (<[ "app" := vmName vm ]> (templateLabels template))
      (Volumes template) (Networks template) (Domain template) in
  let objectMeta :=
    if (0 <? String.length originalName)%nat
    then setAnnotations
           (<[AnnOriginalID := ID (vmRef vm)]> {[ AnnOriginalName := originalName ]})
           (vmMeta object)
    else vmMeta object in
  let running := bool_decide (RestorePowerState vm = VMPowerStateOn) in
  mkVM objectMeta
    (mkVMSpec (Some running) (Preference (Spec object)) (Some template)
       (DataVolumeTemplates (Spec object))).

(** [virtualMachine]: [vm] comes back with the name it has afterwards. *)
Definition virtualMachine (vm : VMStatus) : M (VMStatus * Built) :=
  let* (pvcs, err) := getPVCs (vmRef vm) in
  match Wrap err with
  | Some err => ret (vm, NoObject err)
  | None =>
      let* (vm, originalName, err) :=
        match IsDNS1123Label (vmName vm) with
        | _ :: _ =>
            let originalName := vmName vm in
            let* (name, err) :=
              (λ c, (changeVmNameDNS1123 (vmName vm) (TargetNamespace r) c, c)) in
            ret (setVmName name vm, originalName, err)
        | [] => ret (vm, "", None)
        end in
      match err with
      | Some err => ret (vm, NoObject err)
      | None =>
          let* object := synthesize vm in
          let object := finish vm originalName object in
          let '(spec, err) := builderVirtualMachine builder (vmRef vm) (Spec object) pvcs in
          ret (vm, Object_ (mkVM (vmMeta object) spec) err)
      end
  end.

Definition vmOwnerReference (vm : VirtualMachine) : OwnerReference :=
  mkOwnerReference "kubevirt.io/v1" "VirtualMachine" (Name (vmMeta vm))
    (UID (vmMeta vm)) true false.

(** The second half of [EnsureVM]: the claims of the VM get the
    VirtualMachine as their owner, "so that they'll be cleaned up when the
    VirtualMachine is removed". *)
Definition setOwner (vm : VMStatus) (virtualMachine : VirtualMachine) : M error :=
  let* (_, err) :=
    List (A := DataVolume) (vmLabels (vmRef vm)) (TargetNamespace r) in
  match err with
  | Some _ => ret (Wrap err)
  | None =>
      let* (pvcs, err) := getPVCs (vmRef vm) in
      match err with
      | Some _ => ret (Wrap err)
      | None =>
          forEach (λ pvc : PersistentVolumeClaim,
            let pvc :=
              mkPVC (setOwnerReferences [vmOwnerReference virtualMachine]
                       (pvcMeta pvc)) (Phase pvc) (VolumeMode pvc) in
            let* err := Patch pvc in
            ret (Wrap err)) pvcs
      end
  end.

(** [EnsureVM]: [vm] comes back as the call leaves it. *)
Definition EnsureVM (vm : VMStatus) : M (VMStatus * error) :=
  let* (vms, err) := List (vmLabels (vmRef vm)) (TargetNamespace r) in
  match err with
  | Some _ => ret (vm, Wrap err)
  | None =>
      match vms with
      | [] =>
          let* (vm, built) := virtualMachine vm in
          match built with
          | NoObject err => ret (vm, Wrap (Some err))
          | Object_ _ (Some err) => ret (vm, Wrap (Some err))
          | Object_ virtualMachine None =>
              let* (virtualMachine, err) := Create virtualMachine in
              match err with
              | Some _ => ret (vm, Wrap err)
              | None =>
                  let* err := setOwner vm virtualMachine in
                  ret (vm, err)
              end
          end
      | virtualMachine :: _ =>
          let* err := setOwner vm virtualMachine in
          ret (vm, err)
      end
  end.

(** *** How the client calls run *)

Definition fault (c : Cluster) : error :=
  match faults c with
  | f :: _ => f
  | [] => None
  end.

(** The cluster once a request has been received. *)
Definition received (call : Call) (c : Cluster) : Cluster :=
  setFaults (tail (faults c)) (setCalls (calls c ++ [call]) c).

Lemma nextFault_record call c :
  nextFault (setCalls (calls c ++ [call]) c) = (fault c, received call c).
Proof.
  unfold nextFault, fault, received. destruct c as [? ? ? ? ? ? ? ? ? ? fs ? ?].
  simpl. by destruct fs.
Qed.

Section Runs.
Context {A : Type} `{Object A}.

Lemma List_run selector namespace c :
  List (A := A) selector namespace c =
  (match fault c with
   | Some e => ([], Some e)
   | None => (List.filter (λ x, selected selector namespace (meta x)) (items c), None)
   end, received (ListCall kind selector namespace) c).
Proof.
  unfold List, bind, stored, record. rewrite nextFault_record.
  by destruct (fault c).
Qed.

Lemma Get_run namespace name c :
  Get (A := A) namespace name c =
  (match fault c with
   | Some e => (None, Some e)
   | None =>
       match List.find (λ x, sameKey namespace name (meta x)) (items c) with
       | Some x => (Some x, None)
       | None => (None, Some errNotFound)
       end
   end, received (GetCall kind namespace name) c).
Proof.
  unfold Get, bind, stored, record. rewrite nextFault_record.
  destruct (fault c); [done|].
  by destruct (List.find _ _).
Qed.

Lemma Create_run (x : A) c :
  Create x c =
  let c1 := received (CreateCall kind (meta x)) c in
  let name := serverName (meta x) (serial c) in
  let x' := withMeta (setUID ("uid-" +:+ pretty (serial c)) (setName name (meta x))) x in
  match fault c with
  | Some e => ((x, Some e), c1)
  | None =>
      if bool_decide (name = "") then ((x, Some errInvalid), c1)
      else if existsb (λ y, sameKey (Namespace (meta x)) name (meta y)) (items c)
      then ((x, Some errAlreadyExists), c1)
      else ((x', None), setSerial (S (serial c)) (setItems (items c ++ [x']) c1))
  end.
Proof.
  unfold Create, bind, stored, record. rewrite nextFault_record.
  destruct (fault c); [done|]. unfold received. by destruct c.
Qed.

Lemma store_run call (x : A) c :
  store call x c =
  let c1 := received call c in
  match fault c with
  | Some e => (Some e, c1)
  | None =>
      if existsb (λ y, sameKey (Namespace (meta x)) (Name (meta x)) (meta y)) (items c)
      then (None, setItems (replaceItem x (items c)) c1)
      else (Some errNotFound, c1)
  end.
Proof.
  unfold store, bind, stored, record. rewrite nextFault_record.
  destruct (fault c); [done|]. simpl. by destruct (existsb _ _).
Qed.

Lemma Delete_run (x : A) c :
  Delete x c =
  let c1 := received (DeleteCall kind (meta x)) c in
  match fault c with
  | Some e => (Some e, c1)
  | None =>
      if existsb (λ y, sameKey (Namespace (meta x)) (Name (meta x)) (meta y)) (items c)
      then (None,
            setItems
              (List.filter (λ y, negb (sameKey (Namespace (meta x)) (Name (meta x)) (meta y)))
                 (items c)) c1)
      else (Some errNotFound, c1)
  end.
Proof.
  unfold Delete, bind, stored, record. rewrite nextFault_record.
  destruct (fault c); [done|]. simpl. by destruct (existsb _ _).
Qed.

End Runs.

(** The metadata of the objects of a kind that the requests so far asked
    to create. *)
Definition creates (k : Kind) (l : list Call) : list ObjectMeta :=
  omap (λ call, match call with
                | CreateCall k' m => if bool_decide (k' = k) then Some m else None
                | _ => None
                end) l.

Lemma creates_app k l1 l2 : creates k (l1 ++ l2) = creates k l1 ++ creates k l2.
Proof. apply omap_app. Qed.

(** The desired DataVolumes that no DataVolume of the list stands for. *)
Definition missing (dataVolumeList desired : list DataVolume) : list DataVolume :=
  List.filter (λ dv, negb (isDataVolumeExistsInList dv dataVolumeList)) desired.

Lemma Create_DataVolume_cases (dv : DataVolume) c :
  ∃ x err c1,
    Create dv c = ((x, err), c1) ∧
    calls c1 = calls c ++ [CreateCall KDataVolume (dvMeta dv)] ∧
    match err with
    | Some _ => dataVolumes c1 = dataVolumes c
    | None => dataVolumes c1 = dataVolumes c ++ [x]
    end.
Proof.
  rewrite Create_run. cbv zeta.
  destruct (fault c); [by eexists _, _, _|].
  destruct (bool_decide _); [by eexists _, _, _|].
  destruct (existsb _ _); by eexists _, _, _.
Qed.

Lemma createMissing_run dataVolumeList desired c err c' :
  createMissing dataVolumeList desired c = (err, c') →
  ∃ n,
    creates KDataVolume (calls c') =
      creates KDataVolume (calls c) ++ (dvMeta <$> take n (missing dataVolumeList desired)) ∧
    (err = None →
       n = length (missing dataVolumeList desired) ∧
       length (dataVolumes c') = (length (dataVolumes c) + n)%nat).
Proof.
  revert c. induction desired as [|dv dvs IH]; intros c Hrun.
  - injection Hrun as <- <-. exists O. simpl. rewrite app_nil_r.
    split; [done|]. intros _. split; [done|lia].
  - unfold createMissing, missing in *. cbn [forEach List.filter] in *.
    unfold bind in Hrun at 1.
    destruct (isDataVolumeExistsInList dv dataVolumeList) eqn:Hex; cbn [negb] in *.
    + unfold ret in Hrun at 1. by apply IH.
    + unfold bind in Hrun at 1.
      destruct (Create_DataVolume_cases dv c) as (x & e & c1 & Hcr & Hcalls & Hdvs).
      rewrite Hcr in Hrun. unfold ret in Hrun at 1.
      destruct e as [e|]; cbn [Wrap] in Hrun.
      * injection Hrun as <- <-. exists 1%nat. rewrite Hcalls, creates_app.
        split; [done|]. done.
      * apply IH in Hrun as (n & Hc & Hn). exists (S n).
        rewrite Hc, Hcalls, creates_app, <- app_assoc. split; [done|].
        intros He. destruct (Hn He) as [-> Hl]. split; [done|].
        rewrite Hl, Hdvs, length_app. simpl. lia.
Qed.


(** *** What leaves the VirtualMachines of the cluster alone *)

(** Between two states no VirtualMachine was created, changed or
    deleted, and none was asked for. *)
Definition vmFrame (c c' : Cluster) : Prop :=
  virtualMachines c' = virtualMachines c ∧
  creates KVirtualMachine (calls c') = creates KVirtualMachine (calls c).

Lemma vmFrame_refl c : vmFrame c c.
Proof. by split. Qed.

Lemma vmFrame_trans c1 c2 c3 : vmFrame c1 c2 → vmFrame c2 c3 → vmFrame c1 c3.
Proof. intros [H1 H2] [H3 H4]. split; congruence. Qed.

Lemma vmFrame_received call c :
  creates KVirtualMachine [call] = [] → vmFrame c (received call c).
Proof.
  intros Hcall. split; [done|]. unfold received. simpl.
  by rewrite creates_app, Hcall, app_nil_r.
Qed.

Lemma List_vmFrame {A} `{Object A} selector namespace c :
  vmFrame c (List (A := A) selector namespace c).2.
Proof. rewrite List_run. by apply vmFrame_received. Qed.

Lemma Get_vmFrame {A} `{Object A} namespace name c :
  vmFrame c (Get (A := A) namespace name c).2.
Proof. rewrite Get_run. by apply vmFrame_received. Qed.

Lemma Patch_PersistentVolumeClaim_vmFrame (pvc : PersistentVolumeClaim) c :
  vmFrame c (Patch pvc c).2.
Proof.
  unfold Patch. rewrite store_run. cbv zeta.
  destruct (fault c); [by apply vmFrame_received|].
  destruct (existsb _ _); [|by apply vmFrame_received].
  split; [done|]. simpl. by rewrite creates_app, app_nil_r.
Qed.

Lemma forEach_vmFrame {A} (f : A → M error) (l : list A) c :
  (∀ x c, vmFrame c (f x c).2) → vmFrame c (forEach f l c).2.
Proof.
  intros Hf. revert c. induction l as [|x l IH]; intros c; [apply vmFrame_refl|].
  cbn [forEach]. unfold bind. specialize (Hf x c).
  destruct (f x c) as [[e|] c1]; simpl in *; [done|].
  eapply vmFrame_trans; [done|apply IH].
Qed.

Lemma getPVCs_vmFrame vmRef c : vmFrame c (getPVCs vmRef c).2.
Proof.
  unfold getPVCs, bind.
  pose proof (List_vmFrame (A := PersistentVolumeClaim)
                (<[kVM:=ID vmRef]> {[ "migration" := migrationUID r ]}) "" c) as H.
  destruct (List _ _ c) as [[pvcs [e|]] c1]; done.
Qed.

Lemma getPreference_vmFrame preferenceName c :
  vmFrame c (getPreference preferenceName c).2.
Proof.
  unfold getPreference, getVirtualMachinePreference,
    getVirtualMachineClusterPreference, bind.
  pose proof (Get_vmFrame (A := VirtualMachinePreference)
                (TargetNamespace r) preferenceName c) as H1.
  destruct (Get _ _ c) as [[x [e|]] c1]; simpl in *; [|done].
  pose proof (Get_vmFrame (A := VirtualMachineClusterPreference)
                "" preferenceName c1) as H2.
  destruct (Get _ _ c1) as [[y [e'|]] c2]; simpl in *;
    by eapply vmFrame_trans.
Qed.

(** The objects a strategy may return: they carry the labels of the VM
    and live in the target namespace. *)
Definition owned (vm : VMStatus) (object : VirtualMachine) : Prop :=
  selected (vmLabels (vmRef vm)) (TargetNamespace r) (vmMeta object) = true.

Lemma matchesSelector_spec selector labels :
  matchesSelector selector labels = true ↔
  ∀ k v, selector !! k = Some v → labels !! k = Some v.
Proof.
  unfold matchesSelector. rewrite bool_decide_eq_true. apply map_Forall_lookup.
Qed.

Lemma selected_spec selector namespace m :
  selected selector namespace m = true ↔
  (∀ k v, selector !! k = Some v → Labels m !! k = Some v) ∧
  (namespace = "" ∨ Namespace m = namespace).
Proof.
  unfold selected, inNamespace.
  rewrite andb_true_iff, orb_true_iff, !bool_decide_eq_true, matchesSelector_spec.
  done.
Qed.

Lemma owned_emptyVm vm : owned vm (emptyVm vm).
Proof. apply selected_spec. simpl. auto. Qed.

Lemma vmPreference_run vm c :
  vmFrame c (vmPreference vm c).2 ∧
  ∀ object, (vmPreference vm c).1 = inl object →
    owned vm object ∧ vmMeta object = vmMeta (emptyVm vm) ∧
    Template (Spec object) = Some emptyVMITemplate.
Proof.
  unfold vmPreference.
  destruct (getOsMapConfig _) as [config [e|]]; [by split; [apply vmFrame_refl|]|].
  destruct (PreferenceName _ _ _) as [name [e|]]; [by split; [apply vmFrame_refl|]|].
  case_bool_decide; [by split; [apply vmFrame_refl|]|].
  unfold bind. pose proof (getPreference_vmFrame name c) as Hf.
  destruct (getPreference name c) as [[[name' kind'] [e|]] c1]; simpl in *;
    (split; [done|]); [done|].
  intros object [= <-]. split; [apply owned_emptyVm|done].
Qed.

Lemma findTemplate_vmFrame vm c : vmFrame c (findTemplate vm c).2.
Proof.
  unfold findTemplate.
  destruct (TemplateLabels _ _) as [labels [e|]]; [apply vmFrame_refl|].
  unfold bind. pose proof (List_vmFrame (A := OsTemplate) labels "openshift" c) as Hf.
  destruct (List _ _ c) as [[l e] c1]; simpl in *.
  destruct (Wrap e); [done|].
  destruct l as [|t1 [|t2 l]]; try done.
  by destruct (sortNewestFirst _).
Qed.

Lemma vmTemplate_run vm c :
  vmFrame c (vmTemplate vm c).2 ∧
  ∀ object, (vmTemplate vm c).1 = Some object →
    owned vm object ∧ ∃ template, Template (Spec object) = Some template.
Proof.
  unfold vmTemplate, bind. pose proof (findTemplate_vmFrame vm c) as Hf.
  destruct (findTemplate vm c) as [[tmpl|e] c1]; simpl in *; [|done].
  destruct (processTemplate vm tmpl) as [tmpl' [e|]]; [done|].
  destruct (decodeTemplate tmpl') as [virtualMachine|e]; [|done].
  split; [done|]. intros object [= <-]. split; [|by eexists].
  apply selected_spec. simpl. split; [|auto].
  intros k v Hk. by apply lookup_union_Some_l.
Qed.

Lemma synthesize_run vm c :
  vmFrame c (synthesize vm c).2 ∧ owned vm (synthesize vm c).1 ∧
  ∃ template, Template (Spec (synthesize vm c).1) = Some template.
Proof.
  unfold synthesize, bind.
  destruct (vmPreference_run vm c) as [Hf1 Ho1].
  destruct (vmPreference vm c) as [[object|e] c1]; simpl in *.
  - split; [done|]. destruct (Ho1 object eq_refl) as (? & ? & ?). eauto.
  - destruct (vmTemplate_run vm c1) as [Hf2 Ho2].
    destruct (vmTemplate vm c1) as [[object|] c2]; simpl in *.
    + split; [by eapply vmFrame_trans|]. by apply Ho2.
    + split; [by eapply vmFrame_trans|]. split; [apply owned_emptyVm|by eexists].
Qed.

Lemma owned_ID vm vm' object :
  ID (vmRef vm') = ID (vmRef vm) → owned vm object → owned vm' object.
Proof. unfold owned, vmLabels. by intros ->. Qed.

Lemma owned_finish vm originalName object :
  owned vm object → owned vm (finish vm originalName object).
Proof.
  unfold owned, finish, selected. simpl.
  by destruct (0 <? String.length originalName)%nat.
Qed.

Lemma virtualMachine_run vm c vm1 built c1 :
  virtualMachine vm c = ((vm1, built), c1) →
  vmFrame c c1 ∧
  ID (vmRef vm1) = ID (vmRef vm) ∧
  ∀ object err, built = Object_ object err → owned vm object.
Proof.
  unfold virtualMachine, bind.
  pose proof (getPVCs_vmFrame (vmRef vm) c) as Hf.
  destruct (getPVCs (vmRef vm) c) as [[pvcs e] c0]; simpl in Hf.
  destruct (Wrap e); [by intros [= <- <- <-]|].
  destruct (IsDNS1123Label (vmName vm)) as [|problem problems].
  - unfold ret at 1.
    destruct (synthesize_run vm c0) as (Hf2 & Ho & _).
    destruct (synthesize vm c0) as [object c2]; simpl in Hf2, Ho.
    destruct (builderVirtualMachine _ _ _ _) as [spec err].
    intros [= <- <- <-].
    split; [by eapply vmFrame_trans|]. split; [reflexivity|].
    intros ? ? Heq. injection Heq as <- <-. apply (owned_finish vm "" object Ho).
  - destruct (changeVmNameDNS1123 _ _ c0) as [name [e'|]];
      [by intros [= <- <- <-]|].
    unfold ret at 1.
    destruct (synthesize_run (setVmName name vm) c0) as (Hf2 & Ho & _).
    destruct (synthesize _ c0) as [object c2]; simpl in Hf2, Ho.
    destruct (builderVirtualMachine _ _ _ _) as [spec err].
    intros [= <- <- <-].
    split; [by eapply vmFrame_trans|]. split; [reflexivity|].
    intros ? ? Heq. injection Heq as <- <-.
    apply (owned_ID (setVmName name vm)); [reflexivity|].
    apply (owned_finish (setVmName name vm) (vmName vm) object Ho).
Qed.

Lemma setOwner_vmFrame vm virtualMachine c :
  vmFrame c (setOwner vm virtualMachine c).2.
Proof.
  unfold setOwner, bind.
  pose proof (List_vmFrame (A := DataVolume) (vmLabels (vmRef vm)) (TargetNamespace r) c)
    as H1.
  destruct (List _ _ c) as [[dvs [e|]] c1]; simpl in *; [done|].
  pose proof (getPVCs_vmFrame (vmRef vm) c1) as H2.
  destruct (getPVCs _ c1) as [[pvcs [e|]] c2]; simpl in *;
    [by eapply vmFrame_trans|].
  eapply vmFrame_trans; [by eapply vmFrame_trans|].
  apply forEach_vmFrame. intros pvc c3. unfold bind.
  pose proof (Patch_PersistentVolumeClaim_vmFrame
                (mkPVC (setOwnerReferences [vmOwnerReference virtualMachine]
                          (pvcMeta pvc)) (Phase pvc) (VolumeMode pvc)) c3) as H3.
  by destruct (Patch _ c3).
Qed.

Lemma Create_VirtualMachine_cases (object : VirtualMachine) c :
  ∃ x err c1,
    Create object c = ((x, err), c1) ∧
    match err with
    | Some _ => virtualMachines c1 = virtualMachines c
    | None =>
        virtualMachines c1 = virtualMachines c ++ [x] ∧
        Labels (vmMeta x) = Labels (vmMeta object) ∧
        Namespace (vmMeta x) = Namespace (vmMeta object) ∧
        Spec x = Spec object
    end.
Proof.
  rewrite Create_run. cbv zeta.
  destruct (fault c); [by eexists _, _, _|].
  destruct (bool_decide _); [by eexists _, _, _|].
  destruct (existsb _ _); by eexists _, _, _.
Qed.

(** The VirtualMachines of the cluster that carry the labels of the VM in
    the target namespace. *)
Definition liveVMs (vm : VMStatus) (c : Cluster) : list VirtualMachine :=
  List.filter (λ x, selected (vmLabels (vmRef vm)) (TargetNamespace r) (vmMeta x))
    (virtualMachines c).

Lemma liveVMs_frame vm vm' c c' :
  ID (vmRef vm') = ID (vmRef vm) →
  virtualMachines c' = virtualMachines c → liveVMs vm' c' = liveVMs vm c.
Proof. unfold liveVMs, vmLabels. by intros -> ->. Qed.

Lemma EnsureVM_ID vm c : ID (vmRef (EnsureVM vm c).1.1) = ID (vmRef vm).
Proof.
  unfold EnsureVM, bind.
  destruct (List _ _ c) as [[vms [e|]] c1]; [done|].
  destruct vms as [|v vms].
  - destruct (virtualMachine vm c1) as [[vm1 built] c2] eqn:Hvm.
    apply virtualMachine_run in Hvm as (_ & Hid & _).
    destruct built as [object [e|]|e]; try done.
    destruct (Create object c2) as [[x [e|]] c3]; [done|].
    by destruct (setOwner vm1 x c3).
  - by destruct (setOwner vm v c1).
Qed.

Lemma EnsureVM_existing vm c :
  liveVMs vm c ≠ [] → vmFrame c (EnsureVM vm c).2.
Proof.
  intros Hlive. unfold EnsureVM, bind. rewrite List_run.
  cbn [items meta kind VirtualMachine_Object].
  destruct (fault c); [by apply vmFrame_received|].
  unfold liveVMs in Hlive.
  destruct (List.filter _ (virtualMachines c)) as [|v vms]; [done|].
  set (c0 := received _ c).
  pose proof (setOwner_vmFrame vm v c0) as H.
  destruct (setOwner vm v c0) as [e c1]. simpl in *.
  eapply vmFrame_trans; [|exact H]. by apply vmFrame_received.
Qed.

Lemma EnsureVM_creates_one vm c vm1 c1 :
  liveVMs vm c = [] → EnsureVM vm c = ((vm1, None), c1) →
  ∃ x, virtualMachines c1 = virtualMachines c ++ [x] ∧ owned vm x.
Proof.
  intros Hlive. unfold EnsureVM, bind. rewrite List_run.
  cbn [items meta kind VirtualMachine_Object].
  destruct (fault c); [done|].
  unfold liveVMs in Hlive. rewrite Hlive.
  set (c0 := received _ c).
  destruct (virtualMachine vm c0) as [[vm' built] c2] eqn:Hvm.
  apply virtualMachine_run in Hvm as ([Hf _] & Hid & Ho).
  destruct built as [object [e|]|e]; try done.
  destruct (Create_VirtualMachine_cases object c2) as (x & e & c3 & Hcr & Hc).
  rewrite Hcr.
  destruct e as [e|]; [done|]. destruct Hc as (Hvms & Hl & Hn & _).
  pose proof (setOwner_vmFrame vm' x c3) as [Hf2 _].
  destruct (setOwner vm' x c3) as [e c4]. simpl in Hf2.
  intros [= -> -> ->]. exists x. split; [by rewrite Hf2, Hvms, Hf|].
  specialize (Ho object None eq_refl). unfold owned, selected, inNamespace in *.
  by rewrite Hl, Hn.
Qed.

(** X2. When the cluster holds a VirtualMachine with the labels of the VM
    in the target namespace, [EnsureVM] asks for no VirtualMachine to be
    created and leaves every VirtualMachine as it is, its spec too
    ([vmFrame]), whatever else happens in the call. So, from a cluster
    with at most one such VirtualMachine, once a first [EnsureVM] has
    returned without error there is exactly one, and a second call, on
    the [vm] as the first left it, changes nothing about it: exactly one
    is left. *)
Theorem EnsureVM_idempotent (vm : VMStatus) (c : Cluster) :
  (liveVMs vm c ≠ [] → vmFrame c (EnsureVM vm c).2) ∧
  ((length (liveVMs vm c) ≤ 1)%nat →
   ∀ vm1 c1, EnsureVM vm c = ((vm1, None), c1) →
     length (liveVMs vm c1) = 1%nat ∧
     vmFrame c1 (EnsureVM vm1 c1).2 ∧
     length (liveVMs vm (EnsureVM vm1 c1).2) = 1%nat).
Proof.
  split; [apply EnsureVM_existing|].
  intros Hone vm1 c1 Hrun.
  assert (Hid : ID (vmRef vm1) = ID (vmRef vm)).
  { pose proof (EnsureVM_ID vm c) as H. by rewrite Hrun in H. }
  assert (Hlive : length (liveVMs vm c1) = 1%nat).
  { destruct (liveVMs vm c) as [|v [|v' vms]] eqn:Hl; [| |simpl in Hone; lia].
    - destruct (EnsureVM_creates_one vm c vm1 c1 Hl Hrun) as (x & Hx & Ho).
      unfold liveVMs in *. rewrite Hx, List.filter_app, Hl. simpl.
      unfold owned in Ho. by rewrite Ho.
    - assert (Hne : liveVMs vm c ≠ []) by (by rewrite Hl).
      apply EnsureVM_existing in Hne as [Hf _]. rewrite Hrun in Hf. simpl in Hf.
      by rewrite (liveVMs_frame vm vm c c1 eq_refl Hf), Hl. }
  split; [done|].
  assert (Hf : vmFrame c1 (EnsureVM vm1 c1).2).
  { apply EnsureVM_existing. rewrite (liveVMs_frame vm vm1 c1 c1 Hid eq_refl).
    intros H0. by rewrite H0 in Hlive. }
  split; [done|].
  destruct Hf as [Hf _]. by rewrite (liveVMs_frame vm vm c1 _ eq_refl Hf).
Qed.

(** *** The label scheme *)

(** X3. The selector of the Ensure lists ([vmLabels]) asks for the
    migration, the plan and the VM; the selector of the teardown lists
    ([vmAllButMigrationLabels]) asks for the plan and the VM only. So a
    teardown finds what an Ensure of any migration of the plan created
    for the VM. *)
Theorem label_selectors_scope (vmRef : Ref) (namespace : string) (m : ObjectMeta) :
  (selected (vmLabels vmRef) namespace m = true ↔
     Labels m !! kMigration = Some (migrationUID r) ∧
     Labels m !! kPlan = Some (planUID r) ∧
     Labels m !! kVM = Some (ID vmRef) ∧
     (namespace = "" ∨ Namespace m = namespace)) ∧
  (selected (vmAllButMigrationLabels vmRef) namespace m = true ↔
     Labels m !! kPlan = Some (planUID r) ∧
     Labels m !! kVM = Some (ID vmRef) ∧
     (namespace = "" ∨ Namespace m = namespace)).
Proof.
  rewrite !selected_spec.
  unfold vmAllButMigrationLabels, vmLabels, planLabels. split.
  - split.
    + intros [Hl Hn]. repeat split; [apply Hl..|done]; by simplify_map_eq.
    + intros (Hm & Hp & Hv & Hn). split; [|done]. intros k v Hk.
      destruct (decide (k = kVM)) as [->|]; [by simplify_map_eq|].
      destruct (decide (k = kPlan)) as [->|]; [by simplify_map_eq|].
      destruct (decide (k = kMigration)) as [->|]; by simplify_map_eq.
  - split.
    + intros [Hl Hn]. repeat split; [apply Hl..|done]; by simplify_map_eq.
    + intros (Hp & Hv & Hn). split; [|done]. intros k v Hk.
      destruct (decide (k = kMigration)) as [->|]; [by simplify_map_eq|].
      destruct (decide (k = kVM)) as [->|]; [by simplify_map_eq|].
      destruct (decide (k = kPlan)) as [->|]; by simplify_map_eq.
Qed.

(** X4. [getPVCs] asks for the migration and the VM, in every namespace:
    neither the plan nor the target namespace restricts what it
    returns. A failed list gives no claims and the wrapped error. *)
Theorem getPVCs_scope (vmRef : Ref) (c : Cluster) :
  match fault c with
  | Some e => (getPVCs vmRef c).1 = ([], Wrap (Some e))
  | None =>
      (getPVCs vmRef c).1.2 = None ∧
      ∀ pvc, pvc ∈ (getPVCs vmRef c).1.1 ↔
        pvc ∈ persistentVolumeClaims c ∧
        Labels (pvcMeta pvc) !! kMigration = Some (migrationUID r) ∧
        Labels (pvcMeta pvc) !! kVM = Some (ID vmRef)
  end.
Proof.
  unfold getPVCs, bind. rewrite List_run.
  destruct (fault c) as [e|]; [done|]. simpl. split; [done|].
  intros pvc. rewrite list_elem_of_In, filter_In, <- list_elem_of_In, selected_spec.
  split.
  - intros [Hin [Hl _]]. repeat split; [done|apply Hl..]; by simplify_map_eq.
  - intros (Hin & Hm & Hv). repeat split; [done| |by left].
    intros k v Hk.
    destruct (decide (k = kVM)) as [->|]; [by simplify_map_eq|].
    destruct (decide (k = kMigration)) as [->|]; by simplify_map_eq.
Qed.

(** *** Teardown *)

(** Every kind of object but [k] is as it was. *)
Definition keptBut (k : Kind) (c c' : Cluster) : Prop :=
  (k ≠ KVirtualMachine → virtualMachines c' = virtualMachines c) ∧
  (k ≠ KDataVolume → dataVolumes c' = dataVolumes c) ∧
  (k ≠ KPersistentVolumeClaim → persistentVolumeClaims c' = persistentVolumeClaims c) ∧
  (k ≠ KPod → pods c' = pods c) ∧
  (k ≠ KSecret → secrets c' = secrets c) ∧
  (k ≠ KConfigMap → configMaps c' = configMaps c) ∧
  (k ≠ KJob → jobs c' = jobs c) ∧
  (k ≠ KTemplate → templates c' = templates c) ∧
  (k ≠ KPreference → preferences c' = preferences c) ∧
  (k ≠ KClusterPreference → clusterPreferences c' = clusterPreferences c).

Lemma keptBut_refl k c : keptBut k c c.
Proof. by repeat split. Qed.

Lemma keptBut_trans k c1 c2 c3 : keptBut k c1 c2 → keptBut k c2 c3 → keptBut k c1 c3.
Proof.
  unfold keptBut. intros H1 H2. destruct_and!.
  repeat split; intros Hk;
    repeat match goal with H : _ ≠ _ → _ |- _ => specialize (H Hk) end; congruence.
Qed.

Lemma keptBut_received k call c : keptBut k c (received call c).
Proof. by repeat split. Qed.

(** The instances of [Object] read and write a field of their own. *)
Class ObjectLaws (A : Type) `{Object A} := {
  items_setItems : ∀ (l : list A) c, items (setItems l c) = l;
  faults_setItems : ∀ (l : list A) c, faults (setItems l c) = faults c;
  calls_setItems : ∀ (l : list A) c, calls (setItems l c) = calls c;
  keptBut_setItems : ∀ (l : list A) c, keptBut kind c (setItems l c);
  items_received : ∀ call c, items (A := A) (received call c) = items c
}.

Ltac object_laws :=
  split; intros; try done; unfold keptBut; simpl; repeat split; intros; congruence.

#[global] Instance VirtualMachine_Laws : ObjectLaws VirtualMachine.
Proof. object_laws. Qed.
#[global] Instance DataVolume_Laws : ObjectLaws DataVolume.
Proof. object_laws. Qed.
#[global] Instance PersistentVolumeClaim_Laws : ObjectLaws PersistentVolumeClaim.
Proof. object_laws. Qed.
#[global] Instance Pod_Laws : ObjectLaws Pod.
Proof. object_laws. Qed.
#[global] Instance Secret_Laws : ObjectLaws Secret.
Proof. object_laws. Qed.
#[global] Instance ConfigMap_Laws : ObjectLaws ConfigMap.
Proof. object_laws. Qed.
#[global] Instance Job_Laws : ObjectLaws Job.
Proof. object_laws. Qed.

(** The API server answers NotFound only for what it does not hold. *)
Definition honest (c : Cluster) : Prop :=
  Forall (λ f, IsNotFound f = false) (faults c).

Lemma honest_received call c : honest c → honest (received call c).
Proof.
  unfold honest, received. destruct c as [? ? ? ? ? ? ? ? ? ? fs ? ?]. simpl.
  destruct fs; [done|]. by inversion 1.
Qed.

Lemma honest_fault c e : honest c → fault c = Some e → IsNotFound (Some e) = false.
Proof.
  unfold honest, fault. destruct (faults c) as [|f fs]; [done|].
  inversion 1; subst. by intros ->.
Qed.

(** The namespace and the name: the key of an object of a kind. *)
Definition key (m : ObjectMeta) : string * string := (Namespace m, Name m).

Lemma sameKey_key m m' :
  sameKey (Namespace m) (Name m) m' = true ↔ key m' = key m.
Proof.
  unfold sameKey, key. rewrite andb_true_iff, !bool_decide_eq_true.
  split; [by intros [-> ->]|]. by intros [= -> ->].
Qed.

Section Teardown.
Context {A : Type} `{ObjectLaws A}.

Definition uniqueKeys (c : Cluster) : Prop :=
  NoDup ((λ x : A, key (meta x)) <$> items c).

(** What a teardown by selector leaves: the objects of the kind that the
    selector does not select, the other kinds as they were; and the
    requests it sent: the list and one delete for each object selected. *)
Definition removed (selector : gmap string string) (namespace : string)
    (c c' : Cluster) : Prop :=
  items (A := A) c' =
    List.filter (λ y, negb (selected selector namespace (meta y))) (items c) ∧
  calls c' = calls c ++
    ListCall kind selector namespace ::
    ((λ x : A, DeleteCall kind (meta x)) <$>
       List.filter (λ x, selected selector namespace (meta x)) (items c)) ∧
  keptBut kind c c'.

Definition keyIn (l : list A) (y : A) : bool :=
  existsb (λ x, sameKey (Namespace (meta x)) (Name (meta x)) (meta y)) l.

Lemma filter_filter_keyIn (x : A) (l all : list A) :
  List.filter (λ y, negb (keyIn l y))
    (List.filter (λ y, negb (sameKey (Namespace (meta x)) (Name (meta x)) (meta y))) all)
  = List.filter (λ y, negb (keyIn (x :: l) y)) all.
Proof.
  induction all as [|y all IH]; [done|]. simpl.
  destruct (sameKey _ _ (meta y)); simpl; [done|].
  destruct (keyIn l y); simpl; by rewrite IH.
Qed.

Lemma filter_absent (x : A) (all : list A) :
  existsb (λ y, sameKey (Namespace (meta x)) (Name (meta x)) (meta y)) all = false →
  List.filter (λ y, negb (sameKey (Namespace (meta x)) (Name (meta x)) (meta y))) all = all.
Proof.
  induction all as [|y all IH]; [done|]. simpl.
  destruct (sameKey _ _ (meta y)); simpl; [done|]. intros Hex. by rewrite IH.
Qed.

Lemma DeleteObject_run (x : A) c c' :
  honest c →
  DeleteObject x c = (None, c') →
  items c' =
    List.filter (λ y, negb (sameKey (Namespace (meta x)) (Name (meta x)) (meta y))) (items c) ∧
  calls c' = calls c ++ [DeleteCall kind (meta x)] ∧
  keptBut kind c c' ∧ honest c'.
Proof.
  intros Hh. unfold DeleteObject, bind. rewrite Delete_run. cbv zeta.
  destruct (fault c) as [e|] eqn:Hf.
  { rewrite (honest_fault c e Hh Hf). done. }
  destruct (existsb _ _) eqn:Hex.
  - intros [= <-]. rewrite items_setItems, calls_setItems.
    split; [done|]. split; [done|]. split.
    + eapply keptBut_trans; [apply keptBut_received|apply keptBut_setItems].
    + unfold honest. rewrite faults_setItems. by apply honest_received.
  - simpl. intros [= <-]. rewrite items_received, (filter_absent x _ Hex).
    split; [done|]. split; [done|]. split.
    + apply keptBut_received.
    + by apply honest_received.
Qed.

Lemma deleteEach_run (l : list A) c c' :
  honest c →
  forEach (λ object : A, DeleteObject object) l c = (None, c') →
  items c' = List.filter (λ y, negb (keyIn l y)) (items c) ∧
  calls c' = calls c ++ ((λ x : A, DeleteCall kind (meta x)) <$> l) ∧
  keptBut kind c c'.
Proof.
  revert c. induction l as [|x l IH]; intros c Hh.
  - intros [= <-]. simpl. rewrite app_nil_r. split; [|split; [done|apply keptBut_refl]].
    induction (items c) as [|y all IHall]; [done|]. simpl. by rewrite <- IHall.
  - cbn [forEach]. unfold bind at 1.
    destruct (DeleteObject x c) as [[e|] c1] eqn:Hdel; [done|].
    apply (DeleteObject_run x c c1 Hh) in Hdel as (Hitems & Hcalls & Hkept & Hh1).
    intros Hrest. apply (IH c1 Hh1) in Hrest as (Hitems' & Hcalls' & Hkept').
    rewrite Hitems', Hitems, filter_filter_keyIn, Hcalls', Hcalls, <- app_assoc.
    split; [done|]. split; [done|]. by eapply keptBut_trans.
Qed.

Lemma keyIn_selected selector namespace (all : list A) (y : A) :
  NoDup ((λ x : A, key (meta x)) <$> all) → y ∈ all →
  keyIn (List.filter (λ x, selected selector namespace (meta x)) all) y
  = selected selector namespace (meta y).
Proof.
  intros Hnd Hy. apply eq_true_iff_eq. unfold keyIn.
  rewrite existsb_exists. split.
  - intros (x & Hx & Hk). apply filter_In in Hx as [Hx Hsel].
    apply sameKey_key in Hk.
    assert (y = x) as ->; [|done].
    apply list_elem_of_In in Hx.
    apply list_elem_of_lookup in Hx as [i Hi], Hy as [j Hj].
    assert (i = j) as ->; [|congruence].
    eapply NoDup_lookup; [done| |]; rewrite list_lookup_fmap.
    + by rewrite Hi.
    + rewrite Hj. simpl. by rewrite Hk.
  - intros Hsel. exists y. split; [|by apply sameKey_key].
    apply filter_In. split; [by apply list_elem_of_In|done].
Qed.

Lemma teardown_run selector namespace c c' :
  honest c → uniqueKeys c →
  (let* (list, err) := List (A := A) selector namespace in
   match err with
   | Some _ => ret (Wrap err)
   | None => forEach (λ object : A, DeleteObject object) list
   end) c = (None, c') →
  removed selector namespace c c'.
Proof.
  intros Hh Hnd. unfold bind at 1. rewrite List_run.
  destruct (fault c) as [e|] eqn:Hf; [done|].
  intros Hrun. apply deleteEach_run in Hrun as (Hitems & Hcalls & Hkept);
    [|by apply honest_received].
  rewrite items_received in Hitems. unfold removed. split; [|split].
  - rewrite Hitems. apply filter_ext_in. intros y Hy.
    rewrite keyIn_selected; [done..|by apply list_elem_of_In].
  - rewrite Hcalls. unfold received. simpl. by rewrite <- app_assoc.
  - eapply keptBut_trans; [apply keptBut_received|done].
Qed.

End Teardown.


(** X6. The template [findTemplate] returns is one of the templates of
    the openshift namespace that carry the labels the Builder asked for,
    and none of those was created after it. *)
Theorem findTemplate_newest (vm : VMStatus) (c : Cluster) (tmpl : OsTemplate) :
  (findTemplate vm c).1 = inl tmpl →
  ∃ labels,
    TemplateLabels builder (vmRef vm) = (labels, None) ∧
    tmpl ∈ templates c ∧
    selected labels "openshift" (templateMeta tmpl) = true ∧
    ∀ other, other ∈ templates c →
      selected labels "openshift" (templateMeta other) = true →
      CreationTimestamp (templateMeta other) ≤ CreationTimestamp (templateMeta tmpl).
Proof.
  unfold findTemplate.
  destruct (TemplateLabels builder (vmRef vm)) as [labels [e|]]; [done|].
  unfold bind. rewrite List_run.
  destruct (fault c) as [e|]; [done|]. cbn [Wrap items meta OsTemplate_Object].
  set (found := List.filter _ (templates c)).
  assert (∀ x, x ∈ found ↔ x ∈ templates c ∧ selected labels "openshift" (templateMeta x) = true)
    as Hfound.
  { intros x. unfold found. by rewrite list_elem_of_In, filter_In, <- list_elem_of_In. }
  intros Hres. exists labels. split; [done|].
  assert (tmpl ∈ found ∧ ∀ x, x ∈ found → created x ≤ created tmpl) as [Hin Hmax].
  { destruct found as [|t1 [|t2 l]] eqn:Hl; [done| |].
    - injection Hres as <-. split; [by left|].
      intros x ->%list_elem_of_singleton. apply Z.le_refl.
    - destruct (sortNewestFirst (t1 :: t2 :: l)) as [|t rest] eqn:Hsort; [done|].
      injection Hres as <-. by apply sortNewestFirst_head in Hsort. }
  apply Hfound in Hin as [Hin Hsel]. repeat split; [done..|].
  intros other Hother Hsel'. apply Hmax, Hfound. done.
Qed.

(** *** The VirtualMachine that is built *)

Lemma vmPreference_meta vm c object :
  (vmPreference vm c).1 = inl object → vmMeta object = vmMeta (emptyVm vm).
Proof. intros Hp. by apply (vmPreference_run vm c) in Hp as (_ & -> & _). Qed.

Lemma synthesize_meta vm c :
  Name (vmMeta (synthesize vm c).1) = vmName vm ∧
  Namespace (vmMeta (synthesize vm c).1) = TargetNamespace r.
Proof.
  unfold synthesize, bind.
  pose proof (vmPreference_meta vm c) as Hp.
  destruct (vmPreference vm c) as [[object|e] c1]; simpl in *.
  - by rewrite (Hp object eq_refl).
  - unfold vmTemplate, bind.
    destruct (findTemplate vm c1) as [[tmpl|e'] c2]; simpl; [|done].
    destruct (processTemplate vm tmpl) as [tmpl' [e'|]]; [done|].
    by destruct (decodeTemplate tmpl') as [virtualMachine|e'].
Qed.

(** X7. What [virtualMachine] names the object. The object is named
    after [vm.Name] as the call leaves it and lives in the target
    namespace. A name that is a DNS-1123 label is kept. Another name is
    replaced by what [changeVmNameDNS1123] returns for it, and when it is
    not empty the annotations of the object are replaced by the original
    name and the original ID, these two and nothing else. *)
Theorem virtualMachine_naming
    (vm vm1 : VMStatus) (c c1 : Cluster) (object : VirtualMachine) (err : error) :
  virtualMachine vm c = ((vm1, Object_ object err), c1) →
  Name (vmMeta object) = vmName vm1 ∧
  Namespace (vmMeta object) = TargetNamespace r ∧
  (IsDNS1123Label (vmName vm) = [] → vm1 = vm) ∧
  (IsDNS1123Label (vmName vm) ≠ [] →
     vmName vm1 =
       (changeVmNameDNS1123 (vmName vm) (TargetNamespace r) (getPVCs (vmRef vm) c).2).1 ∧
     (vmName vm ≠ "" →
        Annotations (vmMeta object) =
          <[AnnOriginalID := ID (vmRef vm)]> {[ AnnOriginalName := vmName vm ]})).
Proof.
  unfold virtualMachine, bind.
  destruct (getPVCs (vmRef vm) c) as [[pvcs e] c0]; simpl.
  destruct (Wrap e); [done|].
  destruct (IsDNS1123Label (vmName vm)) as [|problem problems].
  - unfold ret at 1.
    destruct (synthesize_meta vm c0) as [Hname Hns].
    destruct (synthesize vm c0) as [object0 c2]; simpl in Hname, Hns.
    destruct (builderVirtualMachine _ _ _ _) as [spec err'].
    intros [= <- <- <- <-]. simpl. done.
  - destruct (changeVmNameDNS1123 _ _ c0) as [name [e'|]]; [done|].
    unfold ret at 1.
    destruct (synthesize_meta (setVmName name vm) c0) as [Hname Hns].
    destruct (synthesize _ c0) as [object0 c2]; simpl in Hname, Hns.
    destruct (builderVirtualMachine _ _ _ _) as [spec err'].
    intros [= <- <- <- <-]. simpl.
    destruct (vmName vm) as [|a s] eqn:Hvm; simpl; [done|].
    repeat split; try done.
Qed.

(** X8. The errors of [virtualMachine]. It returns no object only when
    the list of the claims or the renaming failed; whatever happens to
    the preference and template strategies (a failed request included),
    it goes on to the Builder, whose error is the one it returns with the
    object. *)
Theorem virtualMachine_errors (vm : VMStatus) (c : Cluster) :
  let claims := getPVCs (vmRef vm) c in
  let renamed := changeVmNameDNS1123 (vmName vm) (TargetNamespace r) claims.2 in
  match (virtualMachine vm c).1.2 with
  | NoObject err =>
      Wrap claims.1.2 = Some err ∨
      (claims.1.2 = None ∧ IsDNS1123Label (vmName vm) ≠ [] ∧ renamed.2 = Some err)
  | Object_ object err =>
      claims.1.2 = None ∧
      (IsDNS1123Label (vmName vm) ≠ [] → renamed.2 = None) ∧
      ∃ ref spec,
        ID ref = ID (vmRef vm) ∧
        builderVirtualMachine builder ref spec claims.1.1 = (Spec object, err)
  end.
Proof.
  unfold virtualMachine, bind. cbv zeta.
  destruct (getPVCs (vmRef vm) c) as [[pvcs e] c0]; simpl.
  destruct e as [e|]; simpl; [by left|].
  destruct (IsDNS1123Label (vmName vm)) as [|problem problems].
  - unfold ret at 1.
    destruct (synthesize vm c0) as [object0 c2].
    destruct (builderVirtualMachine _ _ _ _) as [spec err'] eqn:Hb. simpl.
    split; [done|]. split; [done|]. eexists _, _. split; [|exact Hb]. done.
  - destruct (changeVmNameDNS1123 _ _ c0) as [name [e'|]]; simpl; [by right|].
    destruct (synthesize _ c0) as [object0 c2].
    destruct (builderVirtualMachine _ _ _ _) as [spec err'] eqn:Hb. simpl.
    split; [done|]. split; [done|]. eexists _, _. split; [|exact Hb]. done.
Qed.

(** *** The configuration of the converted VM *)

(** [ovfparser.GetFirmwareFromConfig]: the firmware named by the OVF
    document, or an error. *)
Variable GetFirmwareFromConfig : string → string * option string.

Definition ovfURL (pod : Pod) : string := "http://" +:+ PodIP pod +:+ ":8080/ovf".

Definition shutdownURL (pod : Pod) : string := "http://" +:+ PodIP pod +:+ ":8080/shutdown".

(** [UpdateVmByConvertedConfig]: [vm] and [step] come back as the call
    leaves them; the error is its message. *)
Definition UpdateVmByConvertedConfig (vm : VMStatus) (pod : Pod) (step : Step) (n : Net)
  : (VMStatus * Step * option string) * Net :=
  if bool_decide (PodIP pod = "") then ((vm, step, None), n)
  else
    let '(resp, n) := httpDo (mkRequest GET (ovfURL pod)) n in
    match resp with
    | Failed msg =>
        if Contains msg "connection refused" then ((vm, step, None), n)
        else ((vm, step, Some msg), n)
    | Responded _ (Some e) => ((vm, step, Some e), n)
    | Responded vmConfigXML None =>
        match GetFirmwareFromConfig vmConfigXML with
        | (_, Some e) => ((vm, step, Some e), n)
        | (firmware, None) =>
            let vm := setFirmware firmware vm in
            let '(resp, n) := httpDo (mkRequest POST (shutdownURL pod)) n in
            let err :=
              match resp with
              | Responded _ _ => None
              | Failed msg => if Contains msg "EOF" then None else Some msg
              end in
            let step := MarkCompleted now step in
            let step := setProgressCompleted (Total (progress step)) step in
            ((vm, step, err), n)
        end
    end.

(** The step as [UpdateVmByConvertedConfig] completes it. *)
Definition completed (step : Step) : Step :=
  mkStep (stepName step) (Some now)
    (mkProgress (Total (progress step)) (Total (progress step))).


(** *** The template strategy *)

Lemma GenerateParameterValues_set (seed : Z) (vm : VMStatus)
    (parameters : list TemplateParameter) :
  vmName vm ≠ "" →
  GenerateParameterValues seed (setParameterValues vm parameters)
  = (setParameterValues vm parameters, []).
Proof.
  intros Hname. unfold setParameterValues.
  induction parameters as [|param rest IH]; [done|].
  rewrite fmap_cons. cbn [GenerateParameterValues]. rewrite IH. cbn [Value].
  destruct (bool_decide (paramName param = "NAME"));
    rewrite bool_decide_eq_false_2 by done; done.
Qed.

Lemma processTemplate_run (vm : VMStatus) (tmpl : OsTemplate) :
  vmName vm ≠ "" →
  processTemplate vm tmpl =
  let '(objects, errs) :=
    substituteParameters (setParameterValues vm (Parameters tmpl)) (Objects tmpl) in
  (mkTemplate (templateMeta tmpl) (setParameterValues vm (Parameters tmpl)) objects,
   match errs with
   | [] => None
   | _ :: _ => New ("Failed to process template: " +:+ String.concat ", " errs)
   end).
Proof.
  intros Hname. unfold processTemplate, Process. cbn [Parameters Objects templateMeta].
  rewrite (GenerateParameterValues_set now vm _ Hname).
  destruct (substituteParameters _ _) as [objects errs]. by destruct errs.
Qed.

(** X10. [processTemplate] gives every parameter of the template a value
    before it runs the processor: the name of the VM for NAME, "other"
    for the rest. So for a VM with a name the processor generates no
    value and misses none, and the only errors left are those of the
    substitution into the objects. *)
Theorem processTemplate_sets_every_parameter (vm : VMStatus) (tmpl : OsTemplate) :
  vmName vm ≠ "" →
  (∀ param, param ∈ Parameters (processTemplate vm tmpl).1 →
     Value param = if bool_decide (paramName param = "NAME") then vmName vm else "other") ∧
  (paramName <$> Parameters (processTemplate vm tmpl).1) = (paramName <$> Parameters tmpl) ∧
  ((processTemplate vm tmpl).2 = None ↔
     (substituteParameters (setParameterValues vm (Parameters tmpl)) (Objects tmpl)).2 = []).
Proof.
  intros Hname. rewrite (processTemplate_run vm tmpl Hname).
  destruct (substituteParameters _ _) as [objects errs]. cbn [fst snd Parameters].
  split; [|split].
  - intros param. unfold setParameterValues.
    intros (param0 & -> & _)%list_elem_of_fmap. done.
  - unfold setParameterValues. rewrite <- list_fmap_compose.
    by apply list_fmap_ext.
  - by destruct errs.
Qed.

(** X11. The VirtualMachine of the template strategy. Whatever the
    template says, the object [vmTemplate] returns is named after the VM,
    lives in the target namespace, carries the labels of the VM (they
    win over the template's), has lost the validation annotation, and
    has no volumes, no networks and no DataVolume templates. *)
Theorem vmTemplate_resets (vm : VMStatus) (c : Cluster) (object : VirtualMachine) :
  (vmTemplate vm c).1 = Some object →
  Name (vmMeta object) = vmName vm ∧
  Namespace (vmMeta object) = TargetNamespace r ∧
  (∀ k v, vmLabels (vmRef vm) !! k = Some v → Labels (vmMeta object) !! k = Some v) ∧
  Annotations (vmMeta object) !! AnnKubevirtValidations = None ∧
  DataVolumeTemplates (Spec object) = [] ∧
  ∃ template,
    Template (Spec object) = Some template ∧ Volumes template = [] ∧ Networks template = [].
Proof.
  unfold vmTemplate, bind.
  destruct (findTemplate vm c) as [[tmpl|e] c1]; simpl; [|done].
  destruct (processTemplate vm tmpl) as [tmpl' [e|]]; [done|].
  destruct (decodeTemplate tmpl') as [virtualMachine|e]; [|done].
  simpl. intros [= <-]. simpl.
  split; [done|]. split; [done|]. split; [|split; [|split]].
  - intros k v Hk. by apply lookup_union_Some_l.
  - apply lookup_delete_eq.
  - done.
  - by eexists.
Qed.

(** *** What only reads the cluster *)

Definition isRead (call : Call) : bool :=
  match call with
  | ListCall _ _ _ | GetCall _ _ _ => true
  | _ => false
  end.

(** Between two states the objects are the same, and the requests sent
    were lists and gets. *)
Definition readOnly (c c' : Cluster) : Prop :=
  (virtualMachines c' = virtualMachines c ∧ dataVolumes c' = dataVolumes c ∧
   persistentVolumeClaims c' = persistentVolumeClaims c ∧ pods c' = pods c ∧
   secrets c' = secrets c ∧ configMaps c' = configMaps c ∧ jobs c' = jobs c ∧
   templates c' = templates c ∧ preferences c' = preferences c ∧
   clusterPreferences c' = clusterPreferences c) ∧
  ∃ requests, calls c' = calls c ++ requests ∧ forallb isRead requests = true.

Lemma readOnly_refl c : readOnly c c.
Proof. split; [done|]. exists []. by rewrite app_nil_r. Qed.

Lemma readOnly_trans c1 c2 c3 : readOnly c1 c2 → readOnly c2 c3 → readOnly c1 c3.
Proof.
  intros [H1 (l1 & Hc1 & Hr1)] [H2 (l2 & Hc2 & Hr2)]. split.
  - destruct_and!. repeat split; congruence.
  - exists (l1 ++ l2). rewrite Hc2, Hc1, <- app_assoc, forallb_app, Hr1, Hr2. done.
Qed.

Lemma readOnly_received call c : isRead call = true → readOnly c (received call c).
Proof.
  intros Hcall. split; [done|]. exists [call]. simpl. by rewrite Hcall.
Qed.

Lemma List_readOnly {A} `{Object A} selector namespace c :
  readOnly c (List (A := A) selector namespace c).2.
Proof. rewrite List_run. by apply readOnly_received. Qed.

Lemma Get_readOnly {A} `{Object A} namespace name c :
  readOnly c (Get (A := A) namespace name c).2.
Proof. rewrite Get_run. by apply readOnly_received. Qed.

Lemma getPVCs_readOnly vmRef c : readOnly c (getPVCs vmRef c).2.
Proof.
  unfold getPVCs, bind.
  pose proof (List_readOnly (A := PersistentVolumeClaim)
                (<[kVM:=ID vmRef]> {[ "migration" := migrationUID r ]}) "" c) as H.
  destruct (List _ _ c) as [[pvcs [e|]] c1]; done.
Qed.

Lemma getPreference_readOnly preferenceName c :
  readOnly c (getPreference preferenceName c).2.
Proof.
  unfold getPreference, getVirtualMachinePreference,
    getVirtualMachineClusterPreference, bind.
  pose proof (Get_readOnly (A := VirtualMachinePreference)
                (TargetNamespace r) preferenceName c) as H1.
  destruct (Get _ _ c) as [[x [e|]] c1]; simpl in *; [|done].
  pose proof (Get_readOnly (A := VirtualMachineClusterPreference)
                "" preferenceName c1) as H2.
  destruct (Get _ _ c1) as [[y [e'|]] c2]; simpl in *;
    by eapply readOnly_trans.
Qed.

Lemma vmPreference_readOnly vm c : readOnly c (vmPreference vm c).2.
Proof.
  unfold vmPreference.
  destruct (getOsMapConfig _) as [config [e|]]; [apply readOnly_refl|].
  destruct (PreferenceName _ _ _) as [name [e|]]; [apply readOnly_refl|].
  case_bool_decide; [apply readOnly_refl|].
  unfold bind. pose proof (getPreference_readOnly name c) as Hf.
  by destruct (getPreference name c) as [[[name' kind'] [e|]] c1].
Qed.

Lemma findTemplate_readOnly vm c : readOnly c (findTemplate vm c).2.
Proof.
  unfold findTemplate.
  destruct (TemplateLabels _ _) as [labels [e|]]; [apply readOnly_refl|].
  unfold bind. pose proof (List_readOnly (A := OsTemplate) labels "openshift" c) as Hf.
  destruct (List _ _ c) as [[l e] c1]; simpl in *.
  destruct (Wrap e); [done|].
  destruct l as [|t1 [|t2 l]]; try done.
  by destruct (sortNewestFirst _).
Qed.

Lemma vmTemplate_readOnly vm c : readOnly c (vmTemplate vm c).2.
Proof.
  unfold vmTemplate, bind. pose proof (findTemplate_readOnly vm c) as Hf.
  destruct (findTemplate vm c) as [[tmpl|e] c1]; simpl in *; [|done].
  destruct (processTemplate vm tmpl) as [tmpl' [e|]]; [done|].
  by destruct (decodeTemplate tmpl') as [virtualMachine|e].
Qed.

Lemma synthesize_readOnly vm c : readOnly c (synthesize vm c).2.
Proof.
  unfold synthesize, bind.
  pose proof (vmPreference_readOnly vm c) as H1.
  destruct (vmPreference vm c) as [[object|e] c1]; simpl in *; [done|].
  pose proof (vmTemplate_readOnly vm c1) as H2.
  destruct (vmTemplate vm c1) as [[object|] c2]; simpl in *;
    by eapply readOnly_trans.
Qed.

Lemma virtualMachine_readOnly_run vm c vm1 built c1 :
  virtualMachine vm c = ((vm1, built), c1) →
  readOnly c c1 ∧ ID (vmRef vm1) = ID (vmRef vm) ∧
  RestorePowerState vm1 = RestorePowerState vm ∧ Firmware vm1 = Firmware vm.
Proof.
  unfold virtualMachine, bind.
  pose proof (getPVCs_readOnly (vmRef vm) c) as Hf.
  destruct (getPVCs (vmRef vm) c) as [[pvcs e] c0]; simpl in Hf.
  destruct (Wrap e); [by intros [= <- <- <-]|].
  destruct (IsDNS1123Label (vmName vm)) as [|problem problems].
  - unfold ret at 1.
    pose proof (synthesize_readOnly vm c0) as Hf2.
    destruct (synthesize vm c0) as [object c2]; simpl in Hf2.
    destruct (builderVirtualMachine _ _ _ _) as [spec err].
    intros [= <- <- <-]. split; [by eapply readOnly_trans|done].
  - destruct (changeVmNameDNS1123 _ _ c0) as [name [e'|]];
      [by intros [= <- <- <-]|].
    unfold ret at 1.
    pose proof (synthesize_readOnly (setVmName name vm) c0) as Hf2.
    destruct (synthesize _ c0) as [object c2]; simpl in Hf2.
    destruct (builderVirtualMachine _ _ _ _) as [spec err].
    intros [= <- <- <-]. split; [by eapply readOnly_trans|done].
Qed.

(** X22. Building the VirtualMachine only reads the destination: whatever
    strategy wins and whatever fails on the way, [virtualMachine] leaves
    every object as it is and sends nothing but lists and gets; of [vm]
    it changes the name at most. (The renaming of [changeVmNameDNS1123]
    is taken to read the cluster only.) *)
Theorem virtualMachine_reads_only (vm : VMStatus) (c : Cluster) :
  readOnly c (virtualMachine vm c).2 ∧
  ID (vmRef (virtualMachine vm c).1.1) = ID (vmRef vm) ∧
  RestorePowerState (virtualMachine vm c).1.1 = RestorePowerState vm ∧
  Firmware (virtualMachine vm c).1.1 = Firmware vm.
Proof.
  destruct (virtualMachine vm c) as [[vm1 built] c1] eqn:Hrun.
  by apply virtualMachine_readOnly_run in Hrun.
Qed.
(** *** Patching by key *)

Section Patching.
Context {A : Type} `{ObjectLaws A}.

Lemma uniqueKeys_inj (all : list A) (x y : A) :
  NoDup ((λ x : A, key (meta x)) <$> all) → x ∈ all → y ∈ all →
  key (meta y) = key (meta x) → y = x.
Proof.
  intros Hnd Hx Hy Hk.
  apply list_elem_of_lookup in Hx as [i Hi], Hy as [j Hj].
  assert (i = j) as ->; [|congruence].
  eapply NoDup_lookup; [done| |]; rewrite list_lookup_fmap.
  - by rewrite Hi.
  - rewrite Hj. simpl. by rewrite Hk.
Qed.

(** The objects of [l], each replaced by what [g] makes of it. *)
Definition patched (g : A → A) (l : list A) (y : A) : A :=
  if keyIn l y then g y else y.

Lemma keyIn_app (l1 l2 : list A) (y : A) :
  keyIn (l1 ++ l2) y = keyIn l1 y || keyIn l2 y.
Proof. apply existsb_app. Qed.

Lemma replaceItem_patched (g : A → A) (finished all : list A) (x : A) :
  (∀ x, key (meta (g x)) = key (meta x)) →
  NoDup ((λ x : A, key (meta x)) <$> all) → x ∈ all →
  replaceItem (g x) (patched g finished <$> all) = patched g (finished ++ [x]) <$> all.
Proof.
  intros Hg Hnd Hx. unfold replaceItem. rewrite <- list_fmap_compose.
  apply Forall_fmap_ext, Forall_forall. intros y Hy. unfold compose.
  assert (key (meta (patched g finished y)) = key (meta y)) as Hky.
  { unfold patched. by destruct (keyIn finished y). }
  assert (patched g (finished ++ [x]) y =
          if keyIn [x] y then g y else patched g finished y) as ->.
  { unfold patched. rewrite keyIn_app.
    by destruct (keyIn finished y), (keyIn [x] y). }
  assert (keyIn [x] y = sameKey (Namespace (meta (g x))) (Name (meta (g x)))
                          (meta (patched g finished y))) as ->.
  { unfold keyIn. cbn [existsb]. rewrite orb_false_r.
    apply eq_true_iff_eq. rewrite !sameKey_key, Hky, Hg. done. }
  destruct (sameKey _ _ (meta (patched g finished y))) eqn:Hsame; [|done].
  apply sameKey_key in Hsame. rewrite Hky, Hg in Hsame.
  by rewrite (uniqueKeys_inj all x y Hnd Hx Hy Hsame).
Qed.

Lemma fold_replaceItem (g : A → A) (l finished all : list A) :
  (∀ x, key (meta (g x)) = key (meta x)) →
  NoDup ((λ x : A, key (meta x)) <$> all) → (∀ x, x ∈ l → x ∈ all) →
  fold_left (λ all x, replaceItem (g x) all) l (patched g finished <$> all)
  = patched g (finished ++ l) <$> all.
Proof.
  intros Hg Hnd. revert finished. induction l as [|x l IH]; intros finished Hl.
  - by rewrite app_nil_r.
  - cbn [fold_left]. rewrite replaceItem_patched; [|done..|apply Hl; by left].
    rewrite IH; [|intros y Hy; apply Hl; by right].
    by rewrite <- app_assoc.
Qed.

Lemma fold_replaceItem_all (g : A → A) (l all : list A) :
  (∀ x, key (meta (g x)) = key (meta x)) →
  NoDup ((λ x : A, key (meta x)) <$> all) → (∀ x, x ∈ l → x ∈ all) →
  fold_left (λ all x, replaceItem (g x) all) l all = patched g l <$> all.
Proof.
  intros Hg Hnd Hl.
  pose proof (fold_replaceItem g l [] all Hg Hnd Hl) as Hfold.
  cbn [app] in Hfold. rewrite <- Hfold.
  f_equal. rewrite <- (list_fmap_id all) at 1.
  by apply Forall_fmap_ext, Forall_forall.
Qed.

Lemma patchEach_run (g : A → A) (l : list A) c c' :
  forEach (λ x, let* err := Patch (g x) in ret (Wrap err)) l c = (None, c') →
  items c' = fold_left (λ all x, replaceItem (g x) all) l (items c) ∧
  keptBut kind c c'.
Proof.
  revert c. induction l as [|x l IH]; intros c.
  - intros [= <-]. split; [done|apply keptBut_refl].
  - cbn [forEach]. unfold bind at 1 2, Patch. rewrite store_run. cbv zeta.
    destruct (fault c) as [e|]; [done|].
    destruct (existsb _ _); [|done]. unfold ret at 1. cbn [Wrap].
    intros Hrest. apply IH in Hrest as [Hitems Hkept].
    rewrite items_setItems in Hitems. split; [done|].
    eapply keptBut_trans; [|exact Hkept].
    eapply keptBut_trans; [apply keptBut_received|apply keptBut_setItems].
Qed.

End Patching.

(** *** The owner of the claims *)

(** The claims [getPVCs] returns for a VM. *)
Definition claimed (vmRef : Ref) (pvc : PersistentVolumeClaim) : bool :=
  selected (<[kVM := ID vmRef]> {[ "migration" := migrationUID r ]}) "" (pvcMeta pvc).

(** A claim with the VirtualMachine as its one owner. *)
Definition ownedBy (virtualMachine : VirtualMachine) (pvc : PersistentVolumeClaim)
  : PersistentVolumeClaim :=
  mkPVC (setOwnerReferences [vmOwnerReference virtualMachine] (pvcMeta pvc)) (Phase pvc) (VolumeMode pvc).

Lemma readOnly_claims c c' :
  readOnly c c' →
  persistentVolumeClaims c' = persistentVolumeClaims c ∧ dataVolumes c' = dataVolumes c.
Proof. intros [H _]. by destruct_and!. Qed.

Lemma setOwner_run vm virtualMachine c c' :
  uniqueKeys (A := PersistentVolumeClaim) c →
  setOwner vm virtualMachine c = (None, c') →
  dataVolumes c' = dataVolumes c ∧
  persistentVolumeClaims c' =
    (λ pvc, if claimed (vmRef vm) pvc then ownedBy virtualMachine pvc else pvc)
      <$> persistentVolumeClaims c.
Proof.
  intros Hnd. unfold setOwner, bind.
  pose proof (List_readOnly (A := DataVolume) (vmLabels (vmRef vm)) (TargetNamespace r) c)
    as H1.
  destruct (List _ _ c) as [[dvs [e|]] c1]; simpl in H1; [done|].
  apply readOnly_claims in H1 as [Hp1 Hd1].
  unfold getPVCs, bind. rewrite List_run.
  destruct (fault c1) as [e|]; [done|]. cbn [Wrap ret].
  cbn [items meta kind PersistentVolumeClaim_Object].
  set (c2 := received _ c1).
  intros Hrun.
  apply (patchEach_run (A := PersistentVolumeClaim) (ownedBy virtualMachine)) in Hrun
    as [Hitems Hkept].
  cbn [items PersistentVolumeClaim_Object] in Hitems.
  destruct Hkept as (_ & Hdv & _). cbn [kind PersistentVolumeClaim_Object] in Hdv.
  split; [by rewrite Hdv|].
  change (persistentVolumeClaims c2) with (persistentVolumeClaims c1) in Hitems.
  rewrite Hitems, Hp1.
  etrans.
  { apply (fold_replaceItem_all (A := PersistentVolumeClaim) (ownedBy virtualMachine)
             _ (persistentVolumeClaims c)); [done|exact Hnd|].
    intros x Hx. apply list_elem_of_In, filter_In in Hx as [Hx _].
    by apply list_elem_of_In. }
  apply Forall_fmap_ext, Forall_forall. intros pvc Hpvc. unfold patched, claimed.
  by rewrite (keyIn_selected (A := PersistentVolumeClaim) _ _ _ pvc Hnd Hpvc).
Qed.

Lemma Create_VirtualMachine_others (object : VirtualMachine) c :
  keptBut KVirtualMachine c (Create object c).2.
Proof.
  rewrite Create_run. cbv zeta.
  destruct (fault c); [apply keptBut_received|].
  destruct (bool_decide _); [apply keptBut_received|].
  destruct (existsb _ _); [apply keptBut_received|].
  by repeat split.
Qed.

(** X23. The claims of the VM get the VirtualMachine as their owner. When
    [EnsureVM] returns nil, every claim that carries the migration and the
    VM has the VirtualMachine of the VM (the one found, or the one just
    created) as its one owner reference, and every other claim is as it
    was. The DataVolumes, which the call lists "to set owner references",
    are never changed. *)
Theorem EnsureVM_owns_claims (vm vm1 : VMStatus) (c c1 : Cluster) :
  uniqueKeys (A := PersistentVolumeClaim) c →
  EnsureVM vm c = ((vm1, None), c1) →
  dataVolumes c1 = dataVolumes c ∧
  ∃ virtualMachine,
    head (liveVMs vm c1) = Some virtualMachine ∧
    persistentVolumeClaims c1 =
      (λ pvc, if claimed (vmRef vm) pvc then ownedBy virtualMachine pvc else pvc)
        <$> persistentVolumeClaims c.
Proof.
  intros Hnd. unfold EnsureVM, bind. rewrite List_run.
  cbn [items meta kind VirtualMachine_Object].
  destruct (fault c); [done|].
  set (c0 := received _ c).
  destruct (List.filter _ (virtualMachines c)) as [|v vms] eqn:Hlive.
  - destruct (virtualMachine vm c0) as [[vm' built] c2] eqn:Hvm.
    pose proof Hvm as Hvm'.
    apply virtualMachine_readOnly_run in Hvm as (Hro & Hid & _).
    apply virtualMachine_run in Hvm' as (_ & _ & Ho).
    destruct Hro as [Hro _].
    destruct built as [object [e|]|e]; try done.
    pose proof (Create_VirtualMachine_others object c2) as Hothers.
    destruct (Create_VirtualMachine_cases object c2) as (x & e & c3 & Hcr & Hc).
    rewrite Hcr in Hothers |- *. simpl in Hothers.
    destruct e as [e|]; [done|]. destruct Hc as (Hvms & Hl & Hn & _).
    destruct Hothers as (_ & Hdv & Hpvc & _).
    destruct (setOwner vm' x c3) as [e c4] eqn:Hset.
    intros [= <- -> ->].
    pose proof (setOwner_vmFrame vm' x c3) as [Hf2 _]. rewrite Hset in Hf2. simpl in Hf2.
    apply setOwner_run in Hset as [Hdv4 Hpvc4].
    + split.
      { rewrite Hdv4, Hdv by done. by destruct_and!. }
      exists x. split.
      * unfold liveVMs. rewrite Hf2, Hvms.
        destruct_and!.
        replace (virtualMachines c2) with (virtualMachines c) by done.
        rewrite List.filter_app, Hlive. simpl.
        specialize (Ho object None eq_refl). unfold owned, selected, inNamespace in *.
        by rewrite Hl, Hn, Ho.
      * rewrite Hpvc4, Hpvc by done. destruct_and!.
        replace (persistentVolumeClaims c2) with (persistentVolumeClaims c) by done.
        unfold claimed. by rewrite Hid.
    + unfold uniqueKeys. cbn [items meta PersistentVolumeClaim_Object].
      rewrite Hpvc by done. destruct_and!.
      by replace (persistentVolumeClaims c2) with (persistentVolumeClaims c) by done.
  - destruct (setOwner vm v c0) as [e c4] eqn:Hset.
    intros [= <- -> ->].
    pose proof (setOwner_vmFrame vm v c0) as [Hf2 _]. rewrite Hset in Hf2. simpl in Hf2.
    apply setOwner_run in Hset as [Hdv4 Hpvc4]; [|done].
    split; [done|]. exists v. split; [|done].
    unfold liveVMs. rewrite Hf2. change (virtualMachines c0) with (virtualMachines c).
    by rewrite Hlive.
Qed.

(** *** The secret and the config map of a VM *)

(** [getGeneratedName] and the [GenerateName] of [secret] and
    [configMap]: [strings.Join([]string{r.Plan.Name, vmRef.ID}, "-") + "-"]. *)
Definition generatedNameOf (vmRef : Ref) : string :=
  String.concat "-" [planName r; ID vmRef] +:+ "-".

(** [secret]: the setter may write anything of the object. *)
Definition secret (vmRef : Ref) (setSecretData : Secret → Secret * error)
  : Secret * error :=
  setSecretData
    (mkSecret
       (mkMeta "" (generatedNameOf vmRef) (TargetNamespace r) "" (vmLabels vmRef) ∅ [] [] 0)
       ∅ ∅).

(** [ensureSecret]: the secret the call returns, [None] for nil. *)
Definition ensureSecret (vmRef : Ref) (setSecretData : Secret → Secret * error)
  : M (option Secret * error) :=
  match inventoryVM vmRef with
  | Some err => ret (None, Some err)
  | None =>
      match secret vmRef setSecretData with
      | (_, Some err) => ret (None, Some err)
      | (newSecret, None) =>
          let* (list, err) := List (vmLabels vmRef) (TargetNamespace r) in
          match err with
          | Some _ => ret (None, Wrap err)
          | None =>
              match list with
              | found :: _ =>
                  let secret :=
                    mkSecret (secretMeta found) (secretData found) (StringData newSecret) in
                  let* err := Update secret in
                  ret (Some secret, Wrap err)
              | [] =>
                  let* (secret, err) := Create newSecret in
                  ret (Some secret, Wrap err)
              end
          end
      end
  end.

(** [configMap]. *)
Definition configMap (vmRef : Ref) : ConfigMap * error :=
  builderConfigMap builder vmRef
    (mkConfigMap
       (mkMeta "" (generatedNameOf vmRef) (TargetNamespace r) "" (vmLabels vmRef) ∅ [] [] 0)
       ∅ ∅).

Definition ensureConfigMap (vmRef : Ref) : M (option ConfigMap * error) :=
  match inventoryVM vmRef with
  | Some err => ret (None, Some err)
  | None =>
      let* (list, err) := List (vmLabels vmRef) (TargetNamespace r) in
      match err with
      | Some _ => ret (None, Wrap err)
      | None =>
          match list with
          | found :: _ => ret (Some found, None)
          | [] =>
              match configMap vmRef with
              | (configMap, Some err) => ret (Some configMap, Some err)
              | (configMap, None) =>
                  let* (configMap, err) := Create configMap in
                  ret (Some configMap, Wrap err)
              end
          end
      end
  end.


(** X25. [ensureConfigMap] creates at most one ConfigMap and never
    updates one. When it returns nil, the ConfigMap returned is stored:
    the first of those the VM had, with the cluster left as it was, or
    else the one the Builder filled in, created as the one new
    ConfigMap. *)
Theorem ensureConfigMap_finds_or_creates (vmRef : Ref) (c c' : Cluster)
    (result : option ConfigMap) :
  ensureConfigMap vmRef c = ((result, None), c') →
  inventoryVM vmRef = None ∧
  match List.filter (λ x, selected (vmLabels vmRef) (TargetNamespace r) (configMapMeta x))
          (configMaps c) with
  | found :: _ => result = Some found ∧ readOnly c c'
  | [] =>
      ∃ built stored,
        configMap vmRef = (built, None) ∧ result = Some stored ∧
        configMaps c' = configMaps c ++ [stored] ∧
        configMapData stored = configMapData built ∧
        BinaryData stored = BinaryData built ∧
        Labels (configMapMeta stored) = Labels (configMapMeta built)
  end.
Proof.
  unfold ensureConfigMap.
  destruct (inventoryVM vmRef) as [e|]; [done|].
  unfold bind. rewrite List_run.
  destruct (fault c) as [e|]; [done|].
  cbn [items meta kind ConfigMap_Object].
  set (c0 := received _ c).
  destruct (List.filter _ (configMaps c)) as [|found rest].
  - destruct (configMap vmRef) as [built [e|]] eqn:Hbuilt; [done|].
    rewrite Create_run. cbv zeta.
    destruct (fault c0) as [e|]; [done|].
    destruct (bool_decide _); [done|].
    destruct (existsb _ _); [done|].
    cbn [ret Wrap]. intros [= <- <-]. split; [done|].
    by eexists built, _.
  - cbn [ret]. intros [= <- <-]. split; [done|]. split; [done|].
    by apply readOnly_received.
Qed.

(** *** Importer pods *)

Definition emptyPod : Pod := mkPod emptyMeta "".

(** [GetImporterPod]: the pod, [found], and the error. *)
Definition GetImporterPod (pvc : PersistentVolumeClaim) : M (Pod * bool * error) :=
  let name := default "" (Annotations (pvcMeta pvc) !! AnnImporterPodName) in
  if bool_decide (name = "") then ret (emptyPod, false, None)
  else
    let* (pod, err) := Get (A := Pod) (TargetNamespace r) name in
    match err, pod with
    | Some _, _ =>
        if IsNotFound err then ret (emptyPod, false, None)
        else ret (emptyPod, false, Wrap err)
    | None, Some pod => ret (pod, true, None)
    | None, None => ret (emptyPod, true, None)
    end.

Definition getImporterPods (pvc : PersistentVolumeClaim) : M (list Pod * error) :=
  match Annotations (pvcMeta pvc) !! AnnImporterPodName with
  | None => ret ([], None)
  | Some _ =>
      let* (podList, err) :=
        List (A := Pod) {[ "app" := "containerized-data-importer" ]} (TargetNamespace r) in
      match err with
      | Some _ => ret ([], Wrap err)
      | None =>
          ret (List.filter
                 (λ pod, Contains (Name (podMeta pod)) ("importer-" +:+ Name (pvcMeta pvc)))
                 podList,
               None)
      end
  end.

(** The loop of [DeleteImporterPods]: [err] is the Go variable, which
    every iteration assigns. *)
Fixpoint deletePods (pods : list Pod) (err : error) : M error :=
  match pods with
  | [] => ret err
  | pod :: rest =>
      let* err := Delete pod in
      deletePods rest (Wrap err)
  end.

Definition DeleteImporterPods (pvc : PersistentVolumeClaim) : M error :=
  let* (pods, err) := getImporterPods pvc in
  match err with
  | Some _ => ret err
  | None => deletePods pods None
  end.

Lemma deletePods_last (front : list Pod) (pod : Pod) (err : error) c :
  deletePods (front ++ [pod]) err c =
  let c1 := (deletePods front err c).2 in
  (Wrap (Delete pod c1).1, (Delete pod c1).2).
Proof.
  revert err c. induction front as [|x front IH]; intros err c.
  - simpl. unfold bind. by destruct (Delete pod c).
  - cbn [app deletePods]. unfold bind.
    destruct (Delete x c) as [e c0]. apply IH.
Qed.

Lemma deletePods_calls (pods : list Pod) (err : error) c :
  calls (deletePods pods err c).2 =
  calls c ++ ((λ pod : Pod, DeleteCall KPod (podMeta pod)) <$> pods).
Proof.
  revert err c. induction pods as [|x pods IH]; intros err c.
  - simpl. by rewrite app_nil_r.
  - cbn [deletePods]. unfold bind. rewrite Delete_run. cbv zeta.
    cbn [kind meta items Pod_Object].
    destruct (fault c); [|destruct (existsb _ _)]; rewrite IH; simpl;
      by rewrite <- app_assoc.
Qed.


(** X27. [GetImporterPod] finds the pod the claim's annotation names, in
    the target namespace. It reports [found] exactly when the pod is
    stored and the request was served, and then returns that pod without
    error; a missing pod is no error; and when the annotation is missing
    or empty it sends no request. *)
Theorem GetImporterPod_found (pvc : PersistentVolumeClaim) (c : Cluster) :
  let name := default "" (Annotations (pvcMeta pvc) !! AnnImporterPodName) in
  let out := (GetImporterPod pvc c).1 in
  (name = "" → GetImporterPod pvc c = ((emptyPod, false, None), c)) ∧
  (name ≠ "" →
     calls (GetImporterPod pvc c).2 = calls c ++ [GetCall KPod (TargetNamespace r) name] ∧
     (out.1.2 = true ↔
        fault c = None ∧
        ∃ pod, List.find (λ x, sameKey (TargetNamespace r) name (podMeta x)) (pods c)
               = Some pod ∧ out = (pod, true, None)) ∧
     (out.1.2 = false → out.1.1 = emptyPod) ∧
     (out.2 ≠ None ↔ ∃ e, fault c = Some e ∧ IsNotFound (Some e) = false)).
Proof.
  cbv zeta. unfold GetImporterPod.
  set (name := default "" _). split.
  - intros ->. by rewrite bool_decide_eq_true_2.
  - intros Hname. rewrite bool_decide_eq_false_2 by done.
    unfold bind. rewrite Get_run. cbn [kind meta items Pod_Object].
    destruct (fault c) as [e|] eqn:Hf.
    + destruct (IsNotFound (Some e)) eqn:Hnf; simpl.
      * split; [done|]. split; [split; [done|by intros [[=] _]]|].
        split; [done|]. split; [done|]. intros (e' & [= <-] & He).
        simpl in Hnf, He. congruence.
      * split; [done|]. split; [split; [done|by intros [[=] _]]|].
        split; [done|]. split; [by eauto|done].
    + destruct (List.find _ (pods c)) as [pod|] eqn:Hfind; simpl.
      * split; [done|]. split; [split; [by eauto|done]|].
        split; [done|]. split; [done|]. by intros (e' & [=] & _).
      * split; [done|]. split; [split; [done|by intros [_ (pod & [=] & _)]]|].
        split; [done|]. split; [done|]. by intros (e' & [=] & _).
Qed.

End KubeVirt.

(** *** A small plan, to run the engine on *)

Definition demoContext : Context :=
  mkContext "plan-a" "plan-uid-1" "target" "migration-uid-1" VSphere.

(** A Builder that identifies a DataVolume by its source and leaves the
    VM spec alone. *)
Definition demoBuilder : Builder :=
  mkBuilder dvSource (λ _ spec _, (spec, None)) (λ _ _, ("", None))
    (λ _, (∅, None)) (λ _ secret, (secret, None)) (λ _ configMap, (configMap, None)).

Definition demoVM : VMStatus :=
  mkVMStatus (mkRef "vm-1" "web") VMPowerStateOn "".

Definition demoDataVolume (name source : string) : DataVolume :=
  mkDV (mkMeta name "plan-a-vm-1-" "target" "" (vmLabels demoContext (vmRef demoVM))
          ∅ [] [] 0) source.

Definition emptyCluster : Cluster :=
  mkCluster [] [] [] [] [] [] [] [] [] [] [] [] 0.

(** A cluster that already holds the first disk of the VM, under a name
    of its own. *)
Definition demoCluster : Cluster :=
  setDataVolumes [demoDataVolume "plan-a-vm-1-x7k2p" "disk-1"] emptyCluster.



(** The VM of an earlier migration of the plan, and the VM of another
    source VM. *)
Definition demoVirtualMachine (name vmID migration : string) : VirtualMachine :=
  mkVM (mkMeta name "" "target" ""
          (<[kVM := vmID]> (<[kPlan := "plan-uid-1"]> {[ kMigration := migration ]}))
          ∅ [] [] 0)
       (mkVMSpec None None None []).

Definition demoVirtualMachines : Cluster :=
  setVirtualMachines
    [demoVirtualMachine "web" "vm-1" "migration-uid-0";
     demoVirtualMachine "db" "vm-2" "migration-uid-1"] emptyCluster.



(** Templates of the openshift namespace, and a newer one elsewhere. *)
Definition demoTemplate (name namespace : string) (created : Z) : OsTemplate :=
  mkTemplate (mkMeta name "" namespace "" ∅ ∅ [] [] created) [] [].

Definition demoTemplates : Cluster :=
  setTemplates
    [demoTemplate "rhel8" "openshift" 10; demoTemplate "rhel9" "openshift" 30;
     demoTemplate "fedora" "openshift" 20; demoTemplate "custom" "lab" 40]
    emptyCluster.

Lemma findTemplate_newest_witness :
  ∃ labels,
    TemplateLabels demoBuilder (vmRef demoVM) = (labels, None) ∧
    demoTemplate "rhel9" "openshift" 30 ∈ templates demoTemplates ∧
    selected labels "openshift" (templateMeta (demoTemplate "rhel9" "openshift" 30)) = true ∧
    ∀ other, other ∈ templates demoTemplates →
      selected labels "openshift" (templateMeta other) = true →
      CreationTimestamp (templateMeta other) ≤ 30.
Proof.
  apply (findTemplate_newest demoBuilder demoVM demoTemplates).
  vm_compute. reflexivity.
Defined.

(** What lies outside the cluster, for the runs below: no OS map entry, a
    template processor that leaves the objects as they are, a decoder
    that finds no VirtualMachine, and a renaming that answers with one
    name. *)
Definition demoSettings : SettingsT := mkSettings "vsphere-osmap" "ovirt-osmap".

Definition demoOsMap (name : string) : ConfigMap * error :=
  (mkConfigMap emptyMeta ∅ ∅, None).

Definition demoGenerateValue (seed : Z) (from : string) : string + string :=
  inl "generated".

Definition demoSubstitute (parameters : list TemplateParameter) (objects : list string)
  : list string * list string := (objects, []).

Definition demoDecode (raw : string) : VirtualMachine + Err :=
  inr (mkErr ReasonUnknown "not a VirtualMachine" false).

Definition demoRename (name namespace : string) (c : Cluster) : string * error :=
  ("web-server", None).

Definition demoVirtualMachineOf (vm : VMStatus) : M (VMStatus * Built) :=
  virtualMachine demoContext demoBuilder demoSettings demoOsMap 0
    demoGenerateValue demoSubstitute demoDecode demoRename vm.

Definition demoUnnamed : VMStatus :=
  mkVMStatus (mkRef "vm-1" "Web Server") VMPowerStateOn "".

Lemma virtualMachine_naming_witness :
  match (demoVirtualMachineOf demoUnnamed emptyCluster).1.2 with
  | Object_ object _ =>
      Name (vmMeta object) = "web-server" ∧
      Annotations (vmMeta object)
      = <[AnnOriginalID := "vm-1"]> {[ AnnOriginalName := "Web Server" ]}
  | NoObject _ => False
  end.
Proof.
  unfold demoVirtualMachineOf.
  destruct (virtualMachine _ _ _ _ _ _ _ _ _ demoUnnamed emptyCluster)
    as [[vm1 [object err|e]] c1] eqn:Hrun; simpl.
  - destruct (virtualMachine_naming _ _ _ _ _ _ _ _ _ _ _ _ _ _ _ Hrun)
      as (Hname & _ & _ & Hrenamed).
    destruct Hrenamed as [Hvm1 Hann]; [by vm_compute|].
    split; [by rewrite Hname, Hvm1|]. by apply Hann.
  - vm_compute in Hrun. discriminate.
Defined.


(** A template with a parameter to generate, and one whose object
    decodes into a VirtualMachine with content of its own. *)
Definition demoParameterized : OsTemplate :=
  mkTemplate (mkMeta "rhel9" "" "openshift" "" ∅ ∅ [] [] 30)
    [mkParameter "NAME" "" "" "" true;
     mkParameter "CLOUD_USER_PASSWORD" "" "expression" "[a-z0-9]{4}" false]
    ["VirtualMachine ${NAME}"].

Lemma processTemplate_sets_every_parameter_witness :
  (processTemplate 0 demoGenerateValue demoSubstitute demoVM demoParameterized).2 = None.
Proof.
  destruct (processTemplate_sets_every_parameter 0 demoGenerateValue demoSubstitute
              demoVM demoParameterized) as (_ & _ & Herr).
  - vm_compute. discriminate.
  - apply Herr. reflexivity.
Defined.

Definition demoDecoded : VirtualMachine :=
  mkVM (mkMeta "${NAME}" "" "openshift" "" {[ kVM := "template" ]}
          {[ AnnKubevirtValidations := "[]" ]} [] [] 0)
       (mkVMSpec None None
          (Some (mkVMITemplate ∅ [mkVolume "rootdisk" (Some "claim")] ["default"] "q35"))
          ["rootdisk-template"]).

Definition demoDecodeTemplate (raw : string) : VirtualMachine + Err := inl demoDecoded.

Lemma vmTemplate_resets_witness :
  match (vmTemplate demoContext demoBuilder 0 demoGenerateValue demoSubstitute
           demoDecodeTemplate demoVM (setTemplates [demoParameterized] emptyCluster)).1 with
  | Some object =>
      Name (vmMeta object) = "web" ∧
      Labels (vmMeta object) !! kVM = Some "vm-1" ∧
      Annotations (vmMeta object) !! AnnKubevirtValidations = None
  | None => False
  end.
Proof.
  destruct (vmTemplate _ _ _ _ _ _ _ _) as [[object|] c1] eqn:Hrun; simpl.
  - destruct (vmTemplate_resets demoContext demoBuilder 0 demoGenerateValue demoSubstitute
                demoDecodeTemplate demoVM (setTemplates [demoParameterized] emptyCluster)
                object) as (Hname & _ & Hlabels & Hann & _).
    + by rewrite Hrun.
    + split; [done|]. split; [|done]. apply Hlabels. reflexivity.
  - vm_compute in Hrun. discriminate.
Defined.


(** Two claims, one of the VM and one of another VM, and no
    VirtualMachine yet. *)
Definition demoClaim (name vmID : string) : PersistentVolumeClaim :=
  mkPVC (mkMeta name "" "target" ""
           (<[kVM := vmID]> {[ kMigration := "migration-uid-1" ]}) ∅ [] [] 0)
        ClaimBound None.

Definition demoClaims : Cluster :=
  setPersistentVolumeClaims [demoClaim "disk-a" "vm-1"; demoClaim "disk-b" "vm-2"]
    emptyCluster.

Definition demoEnsureVM (vm : VMStatus) : M (VMStatus * error) :=
  EnsureVM demoContext demoBuilder demoSettings demoOsMap 0
    demoGenerateValue demoSubstitute demoDecode demoRename vm.

Lemma EnsureVM_owns_claims_witness :
  (λ pvc, ownerName <$> OwnerReferences (pvcMeta pvc))
    <$> persistentVolumeClaims (demoEnsureVM demoVM demoClaims).2
  = [["web"]; []].
Proof.
  unfold demoEnsureVM.
  destruct (EnsureVM_owns_claims demoContext demoBuilder demoSettings demoOsMap 0
              demoGenerateValue demoSubstitute demoDecode demoRename
              demoVM (demoEnsureVM demoVM demoClaims).1.1
              demoClaims (demoEnsureVM demoVM demoClaims).2)
    as (_ & virtualMachine & Hhead & Hclaims).
  - apply (bool_decide_unpack _). vm_compute. exact I.
  - vm_compute. reflexivity.
  - unfold demoEnsureVM in Hclaims. rewrite Hclaims.
    vm_compute in Hhead. injection Hhead as <-. vm_compute. reflexivity.
Defined.


(** A VM that already has a secret, with Data of its own, and a setter
    that writes the StringData only. *)
Definition demoSecret : Secret :=
  mkSecret (mkMeta "plan-a-vm-1-k3x9" "plan-a-vm-1-" "target" "uid-7"
              (vmLabels demoContext (vmRef demoVM)) ∅ [] [] 0)
    {[ "password" := "old" ]} ∅.

Definition demoSetter (secret : Secret) : Secret * error :=
  (mkSecret (secretMeta secret) {[ "password" := "new" ]} {[ "accessKeyId" := "admin" ]},
   None).


Lemma ensureConfigMap_finds_or_creates_witness :
  length (configMaps (ensureConfigMap demoContext demoBuilder (λ _, None) (vmRef demoVM)
                        emptyCluster).2) = 1%nat.
Proof.
  remember (ensureConfigMap demoContext demoBuilder (λ _, None) (vmRef demoVM)
              emptyCluster) as out eqn:Hout.
  destruct (ensureConfigMap_finds_or_creates demoContext demoBuilder (λ _, None)
              (vmRef demoVM) emptyCluster out.2 out.1.1) as (_ & Hcreated).
  - rewrite Hout. vm_compute. reflexivity.
  - match type of Hcreated with
    | match ?l with [] => _ | _ :: _ => _ end =>
        replace l with (@nil ConfigMap) in Hcreated by (vm_compute; reflexivity)
    end.
    destruct Hcreated as (built & stored & _ & _ & Hmaps & _).
    rewrite Hmaps. reflexivity.
Defined.

End Plan.

(** ** [pkg/controller/plan/kubevirt.go]: names, builders and imports *)

Module VMImports.

(** A call returns, or the goroutine panics. *)
Inductive outcome (A : Type) :=
  | Return (a : A)
  | Panics (msg : string).
Arguments Return {A} a.
Arguments Panics {A} msg.

(** The plan and its migration, as far as the names and the labels read
    them: [Active] is [Plan.Status.Migration.Active], the UID of the
    active migration. *)
Record PlanT := mkPlan {
  planName : string;
  planNamespace : string;
  planUID : string;
  TargetNamespace : string;
  Active : string
}.

Definition kMigration := "migration".
Definition kPlan := "plan".
Definition kVM := "vmID".

Definition namespace (r : PlanT) : string :=
  if bool_decide (TargetNamespace r = "") then planNamespace r else TargetNamespace r.

(** [uid[len(uid)-4:]]: the slice expression panics on a string of fewer
    than four bytes. *)
Definition last4 (uid : string) : outcome string :=
  if (String.length uid <? 4)%nat
  then Panics "slice bounds out of range"
  else Return (String.substring (String.length uid - 4) 4 uid).

(** [strings.Join(parts, "-")]. *)
Definition joined (parts : list string) : string := String.concat "-" parts.

Definition nameForMapping (r : PlanT) : outcome string :=
  match last4 (planUID r) with
  | Panics msg => Panics msg
  | Return suffix => Return (joined ["plan"; planName r; suffix])
  end.

Definition nameForSecret (r : PlanT) (vmID : string) : outcome string :=
  match last4 (planUID r) with
  | Panics msg => Panics msg
  | Return suffix => Return (joined ["plan"; planName r; vmID; suffix])
  end.

Definition nameForImport (r : PlanT) (vmID : string) : outcome string :=
  match last4 (Active r) with
  | Panics msg => Panics msg
  | Return suffix => Return (joined ["plan"; planName r; vmID; suffix])
  end.

(** *** Objects *)

Record Meta := mkMeta {
  Namespace : string;
  Name : string;
  Labels : gmap string string
}.

(** [vmio.ObjectIdentifier]. *)
Record ObjectIdentifier := mkIdentifier {
  idNamespace : option string;
  idName : string
}.

(** [vmio.VirtualMachineImport]: [Source] stands for the source spec the
    Builder fills in; [StatusDataVolumes] are the names in
    [Status.DataVolumes]. *)
Record VirtualMachineImport := mkImport {
  importMeta : Meta;
  Source : string;
  ProviderCredentialsSecret : ObjectIdentifier;
  ResourceMapping : option ObjectIdentifier;
  StatusDataVolumes : list string
}.

Record ResourceMappingT := mkMapping {
  mappingMeta : Meta;
  mappingSpec : string
}.

Record Secret := mkSecret {
  secretMeta : Meta;
  secretData : gmap string string
}.

Record CdiDataVolume := mkDataVolume {
  dvMeta : Meta
}.

(** [VmImport]: the import with its DataVolumes. *)
Record VmImport := mkVmImport {
  import : VirtualMachineImport;
  DataVolumes : list CdiDataVolume
}.

(** [VmImport.Owner]. *)
Definition Owner (r : VmImport) (dv : CdiDataVolume) : bool :=
  existsb (λ ref, bool_decide (Name (dvMeta dv) = ref)) (StatusDataVolumes (import r)).

Section Builders.

(** The provider adapter ([builder.Builder]) and the snapshot of the map
    kept on the migration. *)
Variable builderSource : string → string * error.
Variable builderMapping : string → string * error.
Variable builderSecret : string → gmap string string → gmap string string * error.
Variable snapshotMap : string * error.
Variable providerSecret : gmap string string.

Variable r : PlanT.

Definition buildSource (vmID : string) : string * error :=
  let '(object, err) := builderSource vmID in
  (object, Wrap err).

(** [buildImport]: [None] stands for the nil object returned when the
    source cannot be built. *)
Definition buildImport (vmID : string) : outcome (option VirtualMachineImport * error) :=
  match buildSource vmID with
  | (_, Some err) => Return (None, Some err)
  | (source, None) =>
      let namespace := namespace r in
      match nameForImport r vmID with
      | Panics msg => Panics msg
      | Return name =>
      match nameForSecret r vmID with
      | Panics msg => Panics msg
      | Return secretName =>
      match nameForMapping r with
      | Panics msg => Panics msg
      | Return mappingName =>
          Return
            (Some
               (mkImport
                  (mkMeta namespace name
                     (<[kVM := vmID]>
                        (<[kPlan := planUID r]> {[ kMigration := Active r ]})))
                  source
                  (mkIdentifier (Some namespace) secretName)
                  (Some (mkIdentifier (Some namespace) mappingName))
                  []),
             None)
      end end end
  end.

Definition buildMapping : outcome (ResourceMappingT * error) :=
  match nameForMapping r with
  | Panics msg => Panics msg
  | Return name =>
      let meta :=
        mkMeta (namespace r) name (<[kPlan := planUID r]> {[ kMigration := Active r ]}) in
      match snapshotMap with
      | (_, Some err) => Return (mkMapping meta "", Wrap (Some err))
      | (mp, None) =>
          let '(spec, err) := builderMapping mp in
          Return (mkMapping meta spec, Wrap err)
      end
  end.

Definition buildSecret (vmID : string) : outcome (Secret * error) :=
  match nameForSecret r vmID with
  | Panics msg => Panics msg
  | Return name =>
      let meta :=
        mkMeta (namespace r) name (<[kPlan := planUID r]> {[ kMigration := Active r ]}) in
      let '(data, err) := builderSecret vmID providerSecret in
      Return (mkSecret meta data, Wrap err)
  end.

(** *** The destination *)

(** What the destination cluster holds, and what its API server answers
    the two lists of [ListImports] with ([None]: the list is served). *)
Record Destination := mkDestination {
  vmImports : list VirtualMachineImport;
  cdiVolumes : list CdiDataVolume;
  importsFault : error;
  volumesFault : error
}.

Definition matchesSelector (selector labels : gmap string string) : bool :=
  bool_decide (map_Forall (λ k v, labels !! k = Some v) selector).

(** [ListOptions.Namespace]: the empty namespace lists all of them. *)
Definition inNamespace (namespace : string) (m : Meta) : bool :=
  bool_decide (namespace = "") || bool_decide (Namespace m = namespace).

Definition importSelector : gmap string string :=
  <[kPlan := planUID r]> {[ kMigration := Active r ]}.

Definition ListImports (d : Destination) : list VmImport * error :=
  match importsFault d with
  | Some err => ([], Wrap (Some err))
  | None =>
      let vList :=
        List.filter
          (λ x, matchesSelector importSelector (Labels (importMeta x))
                && inNamespace (namespace r) (importMeta x))
          (vmImports d) in
      let list := (λ vmImport, mkVmImport vmImport []) <$> vList in
      match volumesFault d with
      | Some err => ([], Wrap (Some err))
      | None =>
          let dvList :=
            List.filter (λ dv, inNamespace (namespace r) (dvMeta dv)) (cdiVolumes d) in
          ((λ vmImport,
              mkVmImport (import vmImport)
                (DataVolumes vmImport ++ List.filter (Owner vmImport) dvList)) <$> list,
           None)
      end
  end.

(** [object.Labels[kVM]]: the zero value when the label is missing. *)
Definition vmIDOf (object : VmImport) : string :=
  default "" (Labels (importMeta (import object)) !! kVM).

Definition ImportMap (d : Destination) : gmap string VmImport * error :=
  match ListImports d with
  | (_, Some err) => (∅, Wrap (Some err))
  | (list, None) =>
      (fold_left (λ mp object, <[vmIDOf object := object]> mp) list ∅, None)
  end.

End Builders.

(** *** An API server that stores what it is given *)

(** The server of [ensureObject] and [EnsureNamespace]: it holds the
    content of the objects by namespace and name. *)

Definition alreadyExists : Err := mkErr ReasonAlreadyExists "already exists" false.
Definition notFound : Err := mkErr ReasonNotFound "not found" false.

Definition storeCreate (object : string * string * string)
    (s : gmap (string * string) string) : error * gmap (string * string) string :=
  match s !! object.1 with
  | Some _ => (Some alreadyExists, s)
  | None => (None, <[object.1 := object.2]> s)
  end.

Definition storeDelete (object : string * string * string)
    (s : gmap (string * string) string) : error * gmap (string * string) string :=
  match s !! object.1 with
  | Some _ => (None, delete object.1 s)
  | None => (Some notFound, s)
  end.

(** [EnsureNamespace] against the store, a namespace being an object
    without namespace. *)
Definition EnsureNamespace (r : PlanT) (s : gmap (string * string) string)
  : error * gmap (string * string) string :=
  let ns := (("", namespace r), "") in
  let '(err, s) := storeCreate ns s in
  if IsAlreadyExists err then (None, s) else (err, s).

(** *** Properties *)

Lemma append_length (a b : string) :
  String.length (a +:+ b) = (String.length a + String.length b)%nat.
Proof. induction a as [|c a IH]; simpl; [done|]. by rewrite IH. Qed.

Lemma append_inj_same_length (a b t t' : string) :
  String.length a = String.length b → a +:+ t = b +:+ t' → a = b.
Proof.
  revert b. induction a as [|c a IH]; intros [|c' b]; simpl; try done.
  intros [= Hlen] [= -> Heq]. f_equal. by apply IH.
Qed.

Lemma append_inj_tail (a b t : string) : a +:+ t = b +:+ t → a = b.
Proof.
  intros Heq. apply (append_inj_same_length a b t t); [|done].
  apply (f_equal String.length) in Heq. rewrite !append_length in Heq. lia.
Qed.

Lemma joined_vm_inj (name suffix vm1 vm2 : string) :
  Return (joined ["plan"; name; vm1; suffix]) = Return (joined ["plan"; name; vm2; suffix]) →
  vm1 = vm2.
Proof.
  intros Heq.
  apply (f_equal (λ o, match o with Return a => a | Panics _ => "" end)) in Heq.
  unfold joined in Heq. cbn [String.concat] in Heq.
  apply (String.app_inj "plan") in Heq. apply (String.app_inj "-") in Heq.
  apply (String.app_inj name) in Heq. apply (String.app_inj "-") in Heq.
  by apply append_inj_tail in Heq.
Qed.

(** X17. The generated names. A name is generated exactly when the UID
    it ends on (the plan's; for an import, the active migration's) has
    at least four bytes: otherwise the slice expression panics, as it
    does for an import while no migration is active. For one plan, the
    secrets of two VMs have the same name only if the VMs are the same,
    and so have the imports of one migration. *)
Theorem generated_names (r : PlanT) (vm1 vm2 : string) :
  ((∃ name, nameForSecret r vm1 = Return name) ↔ (4 ≤ String.length (planUID r))%nat) ∧
  ((∃ name, nameForImport r vm1 = Return name) ↔ (4 ≤ String.length (Active r))%nat) ∧
  (∀ name, nameForSecret r vm1 = Return name → nameForSecret r vm2 = Return name →
     vm1 = vm2) ∧
  (∀ name, nameForImport r vm1 = Return name → nameForImport r vm2 = Return name →
     vm1 = vm2).
Proof.
  unfold nameForSecret, nameForImport, last4.
  split; [|split; [|split]].
  - destruct (Nat.ltb_spec (String.length (planUID r)) 4); split; try lia; eauto.
    by intros [name [=]].
  - destruct (Nat.ltb_spec (String.length (Active r)) 4); split; try lia; eauto.
    by intros [name [=]].
  - destruct (_ <? _)%nat; [done|]. intros name H1 H2.
    rewrite <- H2 in H1. by apply joined_vm_inj in H1.
  - destruct (_ <? _)%nat; [done|]. intros name H1 H2.
    rewrite <- H2 in H1. by apply joined_vm_inj in H1.
Qed.


Lemma Owner_spec (vmImport : VmImport) (dv : CdiDataVolume) :
  Owner vmImport dv = true ↔ Name (dvMeta dv) ∈ StatusDataVolumes (import vmImport).
Proof.
  unfold Owner. rewrite existsb_exists. split.
  - intros (ref & Hin & Heq). apply bool_decide_eq_true in Heq as ->.
    by apply list_elem_of_In.
  - intros Hin. exists (Name (dvMeta dv)). split; [by apply list_elem_of_In|].
    by apply bool_decide_eq_true.
Qed.

(** X19. [ListImports], when both lists are served, returns the imports
    of the namespace that carry the migration and the plan, in the order
    of the list, each with the DataVolumes of the namespace that its
    status names: the labels of a DataVolume play no part, and a
    DataVolume named by two imports goes with both. *)
Theorem ListImports_attaches_volumes (r : PlanT) (d : Destination) (list : list VmImport) :
  ListImports r d = (list, None) →
  (import <$> list) =
    List.filter
      (λ x, matchesSelector (importSelector r) (Labels (importMeta x))
            && inNamespace (namespace r) (importMeta x))
      (vmImports d) ∧
  ∀ vmImport, vmImport ∈ list →
    ∀ dv, dv ∈ DataVolumes vmImport ↔
      dv ∈ cdiVolumes d ∧ inNamespace (namespace r) (dvMeta dv) = true ∧
      Name (dvMeta dv) ∈ StatusDataVolumes (import vmImport).
Proof.
  unfold ListImports.
  destruct (importsFault d) as [e|]; [done|].
  destruct (volumesFault d) as [e|]; [done|].
  intros [= <-]. split.
  - rewrite <- !list_fmap_compose. by rewrite list_fmap_id.
  - intros vmImport (x & -> & (i & -> & Hi)%list_elem_of_fmap)%list_elem_of_fmap dv.
    cbn [DataVolumes import app].
    rewrite list_elem_of_In, filter_In, filter_In, <- list_elem_of_In, Owner_spec.
    cbn [import]. tauto.
Qed.

Lemma fold_insert_lookup (list : list VmImport) (mp : gmap string VmImport) (vmID : string) :
  fold_left (λ mp object, <[vmIDOf object := object]> mp) list mp !! vmID =
  match last (List.filter (λ object, bool_decide (vmIDOf object = vmID)) list) with
  | Some object => Some object
  | None => mp !! vmID
  end.
Proof.
  revert mp. induction list as [|object list IH]; intros mp; [done|].
  cbn [fold_left List.filter]. rewrite IH.
  case_bool_decide as Hid.
  - destruct (List.filter _ list) as [|o l] eqn:Hl.
    + simpl. rewrite <- Hid. apply lookup_insert_eq.
    + rewrite last_cons_cons. destruct (last (o :: l)) eqn:Hlast; [done|].
      by apply last_None in Hlast.
  - destruct (last _); [done|]. by apply lookup_insert_ne.
Qed.

(** X20. [ImportMap] keys the listed imports by their vmID label: under a
    vmID it holds the last listed import with that label, and nothing if
    there is none. Imports without the label are keyed by the empty
    string. *)
Theorem ImportMap_last_wins (r : PlanT) (d : Destination) (mp : gmap string VmImport) :
  ImportMap r d = (mp, None) →
  (ListImports r d).2 = None ∧
  ∀ vmID,
    mp !! vmID =
    last (List.filter (λ object, bool_decide (vmIDOf object = vmID)) (ListImports r d).1).
Proof.
  unfold ImportMap. destruct (ListImports r d) as [list [e|]]; [done|].
  intros [= <-]. split; [done|]. intros vmID. rewrite fold_insert_lookup.
  by destruct (last _).
Qed.

Lemma ensureLoop_step {Server Object : Type}
    (Create Delete : Object → Server → error * Server)
    (fuel : nat) (retry : Z) (object : Object) (c : VMIO.Client) :
  VMIO.ensureLoop Create Delete (S fuel) retry object c =
  let '(err, c) := VMIO.clientCreate Create object c in
  if IsAlreadyExists err && (0 <? retry) then
    let '(err, c) := VMIO.deleteObject Delete object c in
    if negb (isNil err) then Some (err, c)
    else VMIO.ensureLoop Create Delete fuel (retry - 1) object c
  else Some (err, c).
Proof. reflexivity. Qed.

Lemma clientCreate_store (object : string * string * string)
    (s : gmap (string * string) string) calls :
  VMIO.clientCreate storeCreate object (VMIO.mkClient s calls) =
  match s !! object.1 with
  | Some _ =>
      (Some alreadyExists,
       VMIO.mkClient s (calls ++ [VMIO.CreateCall (Some alreadyExists)]))
  | None =>
      (None, VMIO.mkClient (<[object.1 := object.2]> s) (calls ++ [VMIO.CreateCall None]))
  end.
Proof.
  unfold VMIO.clientCreate, storeCreate. cbn [VMIO.server VMIO.calls].
  by destruct (s !! object.1).
Qed.

Lemma deleteObject_store (object : string * string * string)
    (s : gmap (string * string) string) calls :
  is_Some (s !! object.1) →
  VMIO.deleteObject storeDelete object (VMIO.mkClient s calls) =
  (None, VMIO.mkClient (delete object.1 s) (calls ++ [VMIO.DeleteCall None])).
Proof.
  intros [old Hs]. unfold VMIO.deleteObject, VMIO.clientDelete, storeDelete.
  cbn [VMIO.server VMIO.calls]. by rewrite Hs.
Qed.

(** X21. Ensuring against a server that stores what it is given.
    [ensureObject] returns nil and leaves the new object stored: an
    object that was there is replaced, by a delete and a second create,
    never updated in place. [EnsureNamespace] returns nil too, and leaves
    a namespace that was there as it is. *)
Theorem ensure_on_store (r : PlanT) (object : string * string * string)
    (s : gmap (string * string) string) (n : nat) :
  VMIO.ensureObject storeCreate storeDelete (4 + n) object (VMIO.mkClient s [])
  = Some (None,
          VMIO.mkClient (<[object.1 := object.2]> s)
            match s !! object.1 with
            | Some _ =>
                [VMIO.CreateCall (Some alreadyExists); VMIO.DeleteCall None;
                 VMIO.CreateCall None]
            | None => [VMIO.CreateCall None]
            end) ∧
  EnsureNamespace r s
  = (None,
     match s !! ("", namespace r) with
     | Some _ => s
     | None => <[("", namespace r) := ""]> s
     end).
Proof.
  split.
  - unfold VMIO.ensureObject. change (4 + n)%nat with (S (S (2 + n))).
    rewrite ensureLoop_step, clientCreate_store.
    destruct (s !! object.1) as [old|] eqn:Hs; [|done].
    change (IsAlreadyExists (Some alreadyExists) && (0 <? 3)) with true. cbv iota.
    rewrite deleteObject_store by (by rewrite Hs). cbv beta iota.
    change (negb (isNil None)) with false. cbv iota.
    rewrite ensureLoop_step, clientCreate_store, lookup_delete_eq.
    change (IsAlreadyExists None && (0 <? 3 - 1)) with false. cbv iota.
    cbn [Wrap app]. by rewrite insert_delete_eq.
  - unfold EnsureNamespace, storeCreate. cbn [fst snd].
    by destruct (s !! ("", namespace r)).
Qed.

(** A plan with a migration under way, a builder that builds nothing of
    its own, and a destination that holds two imports of the VM and a
    volume one of them names. *)
Definition demoPlan : PlanT :=
  mkPlan "web" "konveyor" "6d2f-41c7" "" "9a1b-77e0".

Definition demoImport (name vmID : string) (volumes : list string) : VirtualMachineImport :=
  mkImport
    (mkMeta "konveyor" name
       (<[kVM := vmID]> (<[kPlan := "6d2f-41c7"]> {[ kMigration := "9a1b-77e0" ]})))
    "" (mkIdentifier None "") None volumes.

Definition demoDestination : Destination :=
  mkDestination
    [demoImport "first" "vm-1" []; demoImport "second" "vm-1" ["disk-0"]]
    [mkDataVolume (mkMeta "konveyor" "disk-0" ∅); mkDataVolume (mkMeta "other" "disk-0" ∅)]
    None None.


Lemma ListImports_attaches_volumes_witness :
  mkDataVolume (mkMeta "konveyor" "disk-0" ∅) ∈ cdiVolumes demoDestination ∧
  inNamespace (namespace demoPlan) (mkMeta "konveyor" "disk-0" ∅) = true ∧
  "disk-0" ∈ ["disk-0"].
Proof.
  destruct (ListImports_attaches_volumes demoPlan demoDestination
              (ListImports demoPlan demoDestination).1) as [_ Hvolumes].
  - vm_compute. reflexivity.
  - apply (Hvolumes (mkVmImport (demoImport "second" "vm-1" ["disk-0"])
                       [mkDataVolume (mkMeta "konveyor" "disk-0" ∅)])).
    + vm_compute. right. left.
    + by left.
Defined.

Lemma ImportMap_last_wins_witness :
  (ImportMap demoPlan demoDestination).1 !! "vm-1"
  = Some (mkVmImport (demoImport "second" "vm-1" ["disk-0"])
            [mkDataVolume (mkMeta "konveyor" "disk-0" ∅)]).
Proof.
  destruct (ImportMap_last_wins demoPlan demoDestination
              (ImportMap demoPlan demoDestination).1) as [_ Hlookup].
  - vm_compute. reflexivity.
  - rewrite Hlookup. vm_compute. reflexivity.
Defined.

End VMImports.
